(** * Async_httpx_Scraper: the concurrency-bounded fetch engine

    A shallow embedding of [src/async_scraper.py] (class [Scraper]) and the
    properties of its specification.

    The coroutine [fetch_json] is written once, as the finite tree of the
    actions it performs (acquire and release of the semaphore, the GETs, the
    sleep, the log lines, the counter increment); exceptions are values of
    that tree, and [try_except] dispatches on them as Python's handlers do.
    Two interpreters read the tree:
    - [run_task] runs one coroutine on its own against the replies of the
      network and returns its value and the actions it performed;
    - [step] and [exec] run the tasks of [asyncio.gather] together, one
      action of one task at a time, in the order a schedule gives.  The
      schedule also carries the network's replies.  asyncio switches tasks
      only at an [await]; the schedules here may switch after every action,
      which includes asyncio's interleavings, whatever the order in which
      the semaphore wakes its waiters.
    [exec_run_task] relates the two: in every schedule each task does what
    [run_task] says on the replies it was given.

    Outside the embedding: httpx and the network (their answers are the
    replies of a schedule, and [raise_for_status] is a parameter), time
    ([asyncio.sleep] is an action without duration), and exceptions that are
    not subclasses of [Exception] (task cancellation). *)

From Stdlib Require Import ZArith Lia.
From stdpp Require Import base option list strings.

Open Scope Z_scope.

(** ** Python values, responses and exceptions *)

(** What [response.json()] can return; [PNone] is Python's [None], which is
    also the value [fetch_json] returns for a failed fetch. *)
#[warnings="-register-all"]
Inductive pyval : Type :=
  | PNone
  | PBool (b : bool)
  | PInt (z : Z)
  | PStr (s : string)
  | PList (items : list pyval)
  | PDict (items : list (string * pyval)).

(** The exception classes the code distinguishes.  [JSONDecodeError],
    [ValueError] and [OtherException] are all caught by [except Exception]
    only. *)
Inductive exn : Type :=
  | HTTPStatusError
  | RequestError
  | JSONDecodeError
  | ValueError
  | OtherException.

(** An [httpx.Response]: its status code, and what [response.json()] gives
    ([None] when the body is not a JSON document and decoding raises). *)
Record response : Type := Response {
  status_code : Z;
  json_body : option pyval
}.

(** What [await self.client.get(url)] comes back with: an exception or a
    response. *)
Definition reply : Type := exn + response.

Inductive log_record : Type :=
  | INFO_fetched (url : string)              (* line 53 *)
  | ERROR_http (url : string)                (* line 57 *)
  | ERROR_request (url : string)             (* line 59 *)
  | ERROR_unexpected (url : string)          (* line 65 *)
  | ERROR_no_data.                           (* line 90 *)

Definition is_error_record (r : log_record) : bool :=
  match r with
  | INFO_fetched _ => false
  | _ => true
  end.

(** Absence is [None]. *)
Definition is_absent (v : pyval) : bool :=
  match v with
  | PNone => true
  | _ => false
  end.

Definition non_absent_count (results : list pyval) : Z :=
  Z.of_nat (length (List.filter (fun v => negb (is_absent v)) results)).

(** ** Coroutines *)

(** A coroutine is the tree of the actions it will perform; the network's
    reply selects the branch after a GET. *)
Inductive coro (A : Type) : Type :=
  | Ret (a : A)
  | Acquire (k : coro A)                       (* semaphore.acquire() *)
  | Release (k : coro A)                       (* semaphore.release() *)
  | Get (url : string) (k : reply -> coro A)   (* await client.get(url) *)
  | Sleep (secs : Z) (k : coro A)              (* await asyncio.sleep(secs) *)
  | Log (r : log_record) (k : coro A)          (* logging.info / logging.error *)
  | Incr (k : coro A).                         (* self.successful_fetches += 1 *)

Arguments Ret {A} a.
Arguments Acquire {A} k.
Arguments Release {A} k.
Arguments Get {A} url k.
Arguments Sleep {A} secs k.
Arguments Log {A} r k.
Arguments Incr {A} k.

Fixpoint bind {A B : Type} (m : coro A) (f : A -> coro B) : coro B :=
  match m with
  | Ret a => f a
  | Acquire k => Acquire (bind k f)
  | Release k => Release (bind k f)
  | Get url k => Get url (fun o => bind (k o) f)
  | Sleep secs k => Sleep secs (bind k f)
  | Log r k => Log r (bind k f)
  | Incr k => Incr (bind k f)
  end.

(** Code that may raise: the coroutine ends in an exception or a value. *)
Definition py (A : Type) : Type := coro (exn + A).

Definition pure {A : Type} (a : A) : py A := Ret (inr a).
Definition raise {A : Type} (e : exn) : py A := Ret (inl e).

Definition and_then {A B : Type} (m : py A) (f : A -> py B) : py B :=
  bind m (fun r => match r with
                   | inl e => raise e
                   | inr a => f a
                   end).

(** [try: body except ...: handler]: the handler receives the exception;
    what the handler itself raises is not caught. *)
Definition try_except {A : Type} (body : py A) (handler : exn -> py A) : py A :=
  bind body (fun r => match r with
                      | inl e => handler e
                      | inr a => pure a
                      end).

(** [async with self.semaphore: body]: the slot is released on every exit
    of the body, a raised exception included. *)
Definition async_with_semaphore {A : Type} (body : py A) : py A :=
  Acquire (bind body (fun r => Release (Ret r))).

Declare Scope py_scope.
Delimit Scope py_scope with py.
Notation "'let*' x ':=' m 'in' k" := (and_then m (fun x => k))
  (at level 10, x name, m at level 100, k at level 200) : py_scope.
Notation "m ';;' k" := (and_then m (fun _ => k))
  (at level 100, k at level 200, right associativity) : py_scope.

Definition client_get (url : string) : py response :=
  Get url (fun o => Ret o).
Definition asyncio_sleep (secs : Z) : py unit := Sleep secs (pure tt).
Definition logging (r : log_record) : py unit := Log r (pure tt).
Definition incr_successful_fetches : py unit := Incr (pure tt).

(** [response.json()] *)
Definition json (r : response) : py pyval :=
  match json_body r with
  | Some v => pure v
  | None => raise JSONDecodeError
  end.

(** ** One coroutine on its own *)

(** What a coroutine does, as seen from outside. *)
Inductive action : Type :=
  | AAcquire
  | ARelease
  | AGet (url : string)
  | ASleep (secs : Z)
  | ALog (r : log_record)
  | AIncr.

Definition performed {A : Type} (a : action) (r : option (A * list action))
  : option (A * list action) :=
  match r with
  | Some (v, acts) => Some (v, a :: acts)
  | None => None
  end.

(** [run_task c replies] runs [c] to its end, answering its GETs with
    [replies] in order: the value it ends in and the actions it performed,
    or [None] when the replies run out before it ends. *)
Fixpoint run_task {A : Type} (c : coro A) (replies : list reply)
  : option (A * list action) :=
  match c with
  | Ret a => Some (a, [])
  | Acquire k => performed AAcquire (run_task k replies)
  | Release k => performed ARelease (run_task k replies)
  | Get url k =>
      match replies with
      | [] => None
      | o :: rest => performed (AGet url) (run_task (k o) rest)
      end
  | Sleep secs k => performed (ASleep secs) (run_task k replies)
  | Log r k => performed (ALog r) (run_task k replies)
  | Incr k => performed AIncr (run_task k replies)
  end.

Definition requests_of (acts : list action) : list string :=
  omap (fun a => match a with AGet url => Some url | _ => None end) acts.

Definition logs_of (acts : list action) : list log_record :=
  omap (fun a => match a with ALog r => Some r | _ => None end) acts.

Definition increments_of (acts : list action) : Z :=
  Z.of_nat (length (List.filter (fun a => match a with AIncr => true | _ => false end) acts)).

(** ** The event loop *)

(** A task of [asyncio.gather]: what is left of its coroutine, and whether
    it is inside the [async with self.semaphore] block. *)
Record task : Type := Task {
  code : py pyval;
  holding : bool
}.

(** The Scraper object ([value] is the semaphore's counter), the tasks, and
    what the run has sent out so far. *)
Record world : Type := World {
  value : Z;                      (* self.semaphore._value *)
  successful_fetches : Z;         (* self.successful_fetches *)
  client_closed : bool;           (* self.client, after aclose() *)
  tasks : list task;
  requests : list string;         (* the GETs issued, oldest first *)
  log : list log_record;          (* logging output, oldest first *)
  printed : list Z;               (* the counts printed by fetch_data *)
  trace : list (nat * action)     (* which task did what, oldest first *)
}.

Definition set_value (v : Z) (w : world) : world :=
  World v (successful_fetches w) (client_closed w) (tasks w) (requests w) (log w)
    (printed w) (trace w).
Definition set_successful_fetches (n : Z) (w : world) : world :=
  World (value w) n (client_closed w) (tasks w) (requests w) (log w)
    (printed w) (trace w).
Definition set_tasks (ts : list task) (w : world) : world :=
  World (value w) (successful_fetches w) (client_closed w) ts (requests w) (log w)
    (printed w) (trace w).
Definition set_task (i : nat) (t : task) (w : world) : world :=
  set_tasks (<[i := t]> (tasks w)) w.
Definition add_request (url : string) (w : world) : world :=
  World (value w) (successful_fetches w) (client_closed w) (tasks w)
    (requests w ++ [url]) (log w) (printed w) (trace w).
Definition add_log (r : log_record) (w : world) : world :=
  World (value w) (successful_fetches w) (client_closed w) (tasks w) (requests w)
    (log w ++ [r]) (printed w) (trace w).
Definition print (n : Z) (w : world) : world :=
  World (value w) (successful_fetches w) (client_closed w) (tasks w) (requests w)
    (log w) (printed w ++ [n]) (trace w).
Definition aclose (w : world) : world :=
  World (value w) (successful_fetches w) true (tasks w) (requests w) (log w)
    (printed w) (trace w).
Definition record (i : nat) (a : action) (w : world) : world :=
  World (value w) (successful_fetches w) (client_closed w) (tasks w) (requests w)
    (log w) (printed w) (trace w ++ [(i, a)]).

(** What an action does to the Scraper and to the outside. *)
Definition effect (a : action) (w : world) : world :=
  match a with
  | AAcquire => set_value (value w - 1) w
  | ARelease => set_value (value w + 1) w
  | AGet url => add_request url w
  | ASleep _ => w
  | ALog r => add_log r w
  | AIncr => set_successful_fetches (successful_fetches w + 1) w
  end.

(** What the event loop does next: it resumes task [i] for one action, or
    hands task [i] the network's reply to the GET it awaits. *)
Inductive event : Type :=
  | Resume (i : nat)
  | Deliver (i : nat) (o : reply).

(** One action of one task.  [None]: the event cannot happen in [w] (no such
    task, the task has returned, it waits for a slot and none is free, or it
    waits for something else than the event brings). *)
Definition step (ev : event) (w : world) : option world :=
  match ev with
  | Resume i =>
      match tasks w !! i with
      | None => None
      | Some t =>
          match code t with
          | Acquire k =>
              if 0 <? value w
              then Some (set_task i (Task k true) (record i AAcquire (effect AAcquire w)))
              else None
          | Release k =>
              Some (set_task i (Task k false) (record i ARelease (effect ARelease w)))
          | Sleep secs k =>
              Some (set_task i (Task k (holding t))
                      (record i (ASleep secs) (effect (ASleep secs) w)))
          | Log r k =>
              Some (set_task i (Task k (holding t)) (record i (ALog r) (effect (ALog r) w)))
          | Incr k =>
              Some (set_task i (Task k (holding t)) (record i AIncr (effect AIncr w)))
          | Get _ _ => None
          | Ret _ => None
          end
      end
  | Deliver i o =>
      match tasks w !! i with
      | None => None
      | Some t =>
          match code t with
          | Get url k =>
              Some (set_task i (Task (k o) (holding t))
                      (record i (AGet url) (effect (AGet url) w)))
          | _ => None
          end
      end
  end.

(** A schedule is the interleaving the event loop and the network chose. *)
Fixpoint exec (sched : list event) (w : world) : option world :=
  match sched with
  | [] => Some w
  | ev :: rest =>
      match step ev w with
      | Some w' => exec rest w'
      | None => None
      end
  end.

(** The number of tasks inside the [async with self.semaphore] block. *)
Fixpoint holding_count (ts : list task) : nat :=
  match ts with
  | [] => 0%nat
  | t :: rest => ((if holding t then 1 else 0) + holding_count rest)%nat
  end.

Definition holders (w : world) : nat := holding_count (tasks w).

(** The replies the network gave to task [i] in a schedule, in order. *)
Definition replies_to (i : nat) (sched : list event) : list reply :=
  omap (fun ev => match ev with
                  | Deliver j o => if Nat.eqb j i then Some o else None
                  | Resume _ => None
                  end) sched.

(** The actions of task [i] in a trace, in order. *)
Definition actions_of (i : nat) (tr : list (nat * action)) : list action :=
  omap (fun ia => if Nat.eqb (fst ia) i then Some (snd ia) else None) tr.

(** [acts] were performed before the run [r] of the rest. *)
Definition after {A : Type} (acts : list action) (r : option (A * list action))
  : option (A * list action) :=
  match r with
  | Some (v, rest) => Some (v, acts ++ rest)
  | None => None
  end.

Definition raised (t : task) : option exn :=
  match code t with
  | Ret (inl e) => Some e
  | _ => None
  end.

Definition returned (t : task) : option pyval :=
  match code t with
  | Ret (inr v) => Some v
  | _ => None
  end.

Definition done (t : task) : bool :=
  match code t with
  | Ret _ => true
  | _ => false
  end.

(** [await asyncio.gather] on the tasks: an exception of a task is raised to the
    caller; otherwise, once every task has returned, the list of their
    values in the order of the tasks; [None] while gather still waits. *)
Definition gather (ts : list task) : option (exn + list pyval) :=
  match omap raised ts with
  | e :: _ => Some (inl e)
  | [] => inr <$> mapM returned ts
  end.

(** How a call ends under a schedule: it returns, it raises, or the schedule
    is not a complete execution of it. *)
Inductive outcome (A : Type) : Type :=
  | Returns (a : A) (w : world)
  | Raises (e : exn)
  | Pending.

Arguments Returns {A} a w.
Arguments Raises {A} e.
Arguments Pending {A}.

(** The truth value of a Python list. *)
Definition truthy {A : Type} (l : list A) : bool :=
  match l with
  | [] => false
  | _ :: _ => true
  end.

(** [Scraper(concurrent_requests)]: [asyncio.Semaphore] raises [ValueError]
    for a negative initial value. *)
Definition Scraper_init (concurrent_requests : Z) : exn + world :=
  if concurrent_requests <? 0
  then inl ValueError
  else inr (World concurrent_requests 0 false [] [] [] [] []).

(** ** Shapes of coroutines *)

(** [bracketed h c]: started with ([h = true]) or without a slot, [c]
    acquires only when it has no slot, releases only when it has one, and
    ends without one. *)
Fixpoint bracketed {A : Type} (h : bool) (c : coro A) : Prop :=
  match c with
  | Ret _ => h = false
  | Acquire k => h = false /\ bracketed true k
  | Release k => h = true /\ bracketed false k
  | Get _ k => forall o, bracketed h (k o)
  | Sleep _ k => bracketed h k
  | Log _ k => bracketed h k
  | Incr k => bracketed h k
  end.

(** [never_raises c]: whatever the network replies, [c] ends in a value. *)
Fixpoint never_raises {A : Type} (c : py A) : Prop :=
  match c with
  | Ret (inl _) => False
  | Ret (inr _) => True
  | Acquire k => never_raises k
  | Release k => never_raises k
  | Get _ k => forall o, never_raises (k o)
  | Sleep _ k => never_raises k
  | Log _ k => never_raises k
  | Incr k => never_raises k
  end.

(** [within n c]: whatever the network replies, [c] ends after at most [n]
    actions. *)
Fixpoint within {A : Type} (n : nat) (c : coro A) : Prop :=
  match c with
  | Ret _ => True
  | Acquire k => match n with O => False | S m => within m k end
  | Release k => match n with O => False | S m => within m k end
  | Get _ k => match n with O => False | S m => forall o, within m (k o) end
  | Sleep _ k => match n with O => False | S m => within m k end
  | Log _ k => match n with O => False | S m => within m k end
  | Incr k => match n with O => False | S m => within m k end
  end.

(** One action of task [t], as a relation: the event that triggers it, the
    action, and the task afterwards.  Acquiring needs a free slot. *)
Inductive moves (i : nat) (t : task) (free : Z) : event -> action -> task -> Prop :=
  | moves_acquire k :
      code t = Acquire k -> 0 < free ->
      moves i t free (Resume i) AAcquire (Task k true)
  | moves_release k :
      code t = Release k ->
      moves i t free (Resume i) ARelease (Task k false)
  | moves_sleep secs k :
      code t = Sleep secs k ->
      moves i t free (Resume i) (ASleep secs) (Task k (holding t))
  | moves_log r k :
      code t = Log r k ->
      moves i t free (Resume i) (ALog r) (Task k (holding t))
  | moves_incr k :
      code t = Incr k ->
      moves i t free (Resume i) AIncr (Task k (holding t))
  | moves_get url k o :
      code t = Get url k ->
      moves i t free (Deliver i o) (AGet url) (Task (k o) (holding t)).

(** The semaphore's invariant: the free slots and the held ones add up to
    the capacity, and every task is bracketed. *)
Definition gate_inv (capacity : Z) (w : world) : Prop :=
  0 <= value w /\
  value w + Z.of_nat (holders w) = capacity /\
  Forall (fun t => bracketed (holding t) (code t)) (tasks w).

(** [budget ts ns]: task number [i] ends within [ns !! i] more actions. *)
Definition budget (ts : list task) (ns : list nat) : Prop :=
  Forall2 (fun t n => within n (code t)) ts ns.

Definition waits_for_slot (t : task) : bool :=
  match code t with
  | Acquire _ => true
  | _ => false
  end.

(** Task [i] can move: on its own, or with whatever reply the network has
    for it. *)
Definition can_move (i : nat) (w : world) : Prop :=
  (exists w', step (Resume i) w = Some w') \/
  (forall o, exists w', step (Deliver i o) w = Some w').

(** The replies of a schedule come from the network [net], which may look at
    the whole world before it answers task [i]. *)
Fixpoint follows (net : world -> nat -> reply) (sched : list event) (w : world) : Prop :=
  match sched with
  | [] => True
  | ev :: rest =>
      match ev with
      | Deliver i o => o = net w i
      | Resume _ => True
      end /\
      match step ev w with
      | Some w' => follows net rest w'
      | None => True
      end
  end.

(** ** The Scraper *)

Section Scraper.

(** [response.raise_for_status()] belongs to httpx: [true] when it raises
    [HTTPStatusError] for the response. *)
Variable raises_for_status : response -> bool.

Definition raise_for_status (r : response) : py unit :=
  if raises_for_status r then raise HTTPStatusError else pure tt.

(** [Scraper.fetch_json], lines 36-66. *)
Definition fetch_json (url : string) : py pyval :=
  async_with_semaphore
    (try_except
       (let* response := client_get url in
        raise_for_status response ;;
        asyncio_sleep 1 ;;
        logging (INFO_fetched url) ;;
        incr_successful_fetches ;;
        json response)%py
       (fun e =>
          match e with
          | HTTPStatusError =>
              (logging (ERROR_http url) ;;
               pure PNone)%py                              (* line 66 *)
          | RequestError =>
              (logging (ERROR_request url) ;;
               try_except
                 (let* response := client_get url in      (* retrying once *)
                  pure PNone)%py                           (* line 66 *)
                 (fun _ => pure PNone))%py                 (* line 63 *)
          | _ =>
              (logging (ERROR_unexpected url) ;;
               pure PNone)%py                              (* line 66 *)
          end)).

(** Line 78: one coroutine per URL; [gather] makes them tasks. *)
Definition create_tasks (urls_list : list string) : list task :=
  (fun url => Task (fetch_json url) false) <$> urls_list.

Definition started (urls_list : list string) (self : world) : world :=
  set_tasks (create_tasks urls_list) self.

(** [Scraper.fetch_data], lines 68-81. *)
Definition fetch_data (urls_list : list string) (sched : list event) (self : world)
  : outcome (list pyval) :=
  match exec sched (started urls_list self) with
  | None => Pending
  | Some w =>
      match gather (tasks w) with
      | None => Pending
      | Some (inl e) => Raises e
      | Some (inr results) => Returns results (print (successful_fetches w) w)
      end
  end.

(** [Scraper.run], lines 83-91; leaving [async with] closes the client. *)
Definition run (urls_list : list string) (concurrency : Z) (sched : list event)
  : outcome (option (list pyval)) :=
  match Scraper_init concurrency with
  | inl e => Raises e
  | inr scraper =>
      match fetch_data urls_list sched scraper with
      | Returns data w =>
          if truthy data
          then Returns (Some data) (aclose w)
          else Returns None (aclose (add_log ERROR_no_data w))
      | Raises e => Raises e
      | Pending => Pending
      end
  end.

End Scraper.

(** httpx's own [raise_for_status]: it raises unless the status is 2xx. *)
Definition httpx_raises_for_status (r : response) : bool :=
  negb ((200 <=? status_code r) && (status_code r <=? 299)).


(** ** Measures of a run *)

(** [inside h c]: started with or without a slot, [c] awaits the network and
    sleeps only while it has a slot. *)
Fixpoint inside {A : Type} (h : bool) (c : coro A) : Prop :=
  match c with
  | Ret _ => True
  | Acquire k => inside true k
  | Release k => inside false k
  | Get _ k => h = true /\ forall o, inside h (k o)
  | Sleep _ k => h = true /\ inside h k
  | Log _ k => inside h k
  | Incr k => inside h k
  end.

(** The task is suspended at [await self.client.get(url)] or at
    [await asyncio.sleep(1)]. *)
Definition suspended (t : task) : bool :=
  match code t with
  | Get _ _ => true
  | Sleep _ _ => true
  | _ => false
  end.

Fixpoint suspended_count (ts : list task) : nat :=
  match ts with
  | [] => 0%nat
  | t :: rest => ((if suspended t then 1 else 0) + suspended_count rest)%nat
  end.

(** [f 0 + ... + f (n - 1)] *)
Fixpoint sumZ (f : nat -> Z) (n : nat) : Z :=
  match n with
  | O => 0
  | S m => sumZ f m + f m
  end.

Definition info_count (l : list log_record) : Z :=
  Z.of_nat (length (List.filter (fun r => negb (is_error_record r)) l)).

Definition error_count (l : list log_record) : Z :=
  Z.of_nat (length (List.filter is_error_record l)).

(** The pauses of one second in a list of actions. *)
Definition sleeps_of (acts : list action) : Z :=
  Z.of_nat (length (List.filter
                      (fun a => match a with ASleep 1 => true | _ => false end) acts)).

Definition other_sleeps_of (acts : list action) : Z :=
  Z.of_nat (length (List.filter
                      (fun a => match a with
                                | ASleep 1 => false
                                | ASleep _ => true
                                | _ => false
                                end) acts)).

(** The first reply is [httpx.RequestError]. *)
Definition first_is_request_error (replies : list reply) : bool :=
  match replies with
  | inl RequestError :: _ => true
  | _ => false
  end.

(** ** Schedules of concrete runs *)

(** A Scraper of one slot, and a schedule for two URLs of which the second
    completes first: its GET fails twice while the first task still waits
    for the slot, then the first URL answers 200 with the body [7]. *)
Definition one_slot : world := World 1 0 false [] [] [] [] [].

Definition second_first : list event :=
  [Resume 1; Deliver 1 (inl RequestError); Resume 1; Deliver 1 (inl OtherException);
   Resume 1;
   Resume 0; Deliver 0 (inr (Response 200 (Some (PInt 7)))); Resume 0; Resume 0;
   Resume 0; Resume 0]%nat.

(** The same schedule, stopped while the second task holds the slot. *)
Definition second_holds : list event :=
  [Resume 1; Deliver 1 (inl RequestError); Resume 1]%nat.

(** The same replies, the first task first. *)
Definition first_first : list event :=
  [Resume 0; Deliver 0 (inr (Response 200 (Some (PInt 7)))); Resume 0; Resume 0;
   Resume 0; Resume 0;
   Resume 1; Deliver 1 (inl RequestError); Resume 1; Deliver 1 (inl OtherException);
   Resume 1]%nat.

(** One URL that answers 200 with a body that is not JSON. *)
Definition undecodable : list event :=
  [Resume 0; Deliver 0 (inr (Response 200 None)); Resume 0; Resume 0; Resume 0;
   Resume 0; Resume 0]%nat.

(** One URL that cannot be reached, on the first GET and on the retry. *)
Definition unreachable : list event :=
  [Resume 0; Deliver 0 (inl RequestError); Resume 0; Deliver 0 (inl RequestError);
   Resume 0]%nat.

(** * Properties *)

(** ** The step function and the step relation *)

Lemma step_moves ev w w' :
  step ev w = Some w' <->
  exists i t a t',
    tasks w !! i = Some t /\ moves i t (value w) ev a t' /\
    w' = set_task i t' (record i a (effect a w)).
Proof.
  split.
  - destruct ev as [i | i o]; simpl; intros H;
      destruct (tasks w !! i) as [t |] eqn:Ht; try discriminate;
      destruct (code t) eqn:Hc; try discriminate.
    + destruct (0 <? value w) eqn:Hv; try discriminate.
      apply Z.ltb_lt in Hv. injection H as <-.
      exists i, t. do 2 eexists. repeat split; eauto using moves.
    + injection H as <-. exists i, t. do 2 eexists. repeat split; eauto using moves.
    + injection H as <-. exists i, t. do 2 eexists. repeat split; eauto using moves.
    + injection H as <-. exists i, t. do 2 eexists. repeat split; eauto using moves.
    + injection H as <-. exists i, t. do 2 eexists. repeat split; eauto using moves.
    + injection H as <-. exists i, t. do 2 eexists. repeat split; eauto using moves.
  - intros (i & t & a & t' & Ht & Hm & ->).
    destruct Hm as [k Hc Hv | k Hc | secs k Hc | r k Hc | k Hc | url k o Hc];
      simpl; rewrite Ht, Hc; try reflexivity.
    apply Z.ltb_lt in Hv. rewrite Hv. reflexivity.
Qed.

Lemma tasks_set_task i t w : tasks (set_task i t w) = <[i := t]> (tasks w).
Proof. reflexivity. Qed.

Lemma tasks_effect i a w : tasks (record i a (effect a w)) = tasks w.
Proof. destruct a; reflexivity. Qed.

(** ** The admission gate *)

Lemma holding_count_insert ts i t t' :
  ts !! i = Some t ->
  (holding_count (<[i := t']> ts) + (if holding t then 1 else 0) =
   holding_count ts + (if holding t' then 1 else 0))%nat.
Proof.
  revert i. induction ts as [| a ts IH]; intros [| i] H; simpl in *; try discriminate.
  - injection H as ->. lia.
  - specialize (IH i H). lia.
Qed.

Lemma holding_count_free ts :
  Forall (fun t => holding t = false) ts -> holding_count ts = 0%nat.
Proof.
  induction 1 as [| t ts Ht _ IH]; simpl; [reflexivity |].
  rewrite Ht, IH. reflexivity.
Qed.

Lemma step_gate_inv capacity ev w w' :
  step ev w = Some w' -> gate_inv capacity w -> gate_inv capacity w'.
Proof.
  intros H (Hv & Hsum & Hall).
  apply step_moves in H as (i & t & a & t' & Ht & Hm & ->).
  pose proof (holding_count_insert _ _ _ t' Ht) as Hc.
  assert (Hb : bracketed (holding t) (code t)).
  { eapply Forall_lookup_1 in Hall; eauto. }
  unfold gate_inv, holders in *.
  destruct Hm as [k Hk Hpos | k Hk | secs k Hk | r k Hk | k Hk | url k o Hk];
    rewrite Hk in Hb; simpl in *.
  - destruct Hb as [Hh Hb]. rewrite Hh in Hc. repeat split; try lia.
    apply Forall_insert; auto.
  - destruct Hb as [Hh Hb]. rewrite Hh in Hc. repeat split; try lia.
    apply Forall_insert; auto.
  - repeat split; try lia. apply Forall_insert; auto.
  - repeat split; try lia. apply Forall_insert; auto.
  - repeat split; try lia. apply Forall_insert; auto.
  - repeat split; try lia. apply Forall_insert; auto. simpl. apply Hb.
Qed.

Lemma exec_gate_inv capacity sched w w' :
  exec sched w = Some w' -> gate_inv capacity w -> gate_inv capacity w'.
Proof.
  revert w. induction sched as [| ev sched IH]; intros w H Hinv; simpl in H.
  - injection H as <-. exact Hinv.
  - destruct (step ev w) as [w1 |] eqn:Hs; [| discriminate].
    eauto using step_gate_inv.
Qed.

(** ** Every schedule is finite *)

Lemma sum_list_insert_pred (ns : list nat) i m :
  ns !! i = Some (S m) -> sum_list ns = S (sum_list (<[i := m]> ns)).
Proof.
  revert i. induction ns as [| n ns IH]; intros [| i] H; simpl in *; try discriminate.
  - injection H as ->. reflexivity.
  - rewrite (IH i H). lia.
Qed.

Lemma step_budget ev w w' ns :
  step ev w = Some w' -> budget (tasks w) ns ->
  exists ns', budget (tasks w') ns' /\ sum_list ns = S (sum_list ns').
Proof.
  intros H Hb.
  apply step_moves in H as (i & t & a & t' & Ht & Hm & ->).
  destruct (Forall2_lookup_l _ _ _ _ _ Hb Ht) as (n & Hn & Hw).
  assert (Hnext : exists m, n = S m /\ within m (code t')).
  { destruct Hm as [k Hk Hpos | k Hk | secs k Hk | r k Hk | k Hk | url k o Hk];
      rewrite Hk in Hw; simpl in *; destruct n as [| m]; try contradiction; eauto. }
  destruct Hnext as (m & -> & Hm').
  exists (<[i := m]> ns). split.
  - unfold budget. rewrite tasks_set_task, tasks_effect.
    apply Forall2_insert; assumption.
  - apply sum_list_insert_pred; assumption.
Qed.

Lemma exec_budget sched w w' ns :
  exec sched w = Some w' -> budget (tasks w) ns ->
  exists ns', budget (tasks w') ns' /\ sum_list ns = (length sched + sum_list ns')%nat.
Proof.
  revert w ns. induction sched as [| ev sched IH]; intros w ns H Hb; simpl in H.
  - injection H as <-. exists ns. split; [assumption | reflexivity].
  - destruct (step ev w) as [w1 |] eqn:Hs; [| discriminate].
    destruct (step_budget _ _ _ _ Hs Hb) as (ns1 & Hb1 & Hsum1).
    destruct (IH _ _ H Hb1) as (ns' & Hb' & Hsum').
    exists ns'. split; [assumption |]. simpl. lia.
Qed.

(** ** No deadlock *)

(** A task that has not returned and does not wait for a slot can move. *)
Lemma runnable_can_move i t w :
  tasks w !! i = Some t -> done t = false -> waits_for_slot t = false ->
  can_move i w.
Proof.
  unfold done, waits_for_slot, can_move. intros Ht Hd Hw.
  destruct (code t) eqn:Hc; try discriminate.
  - left. eexists. apply step_moves. do 4 eexists. eauto using moves.
  - right. intros o. eexists. apply step_moves. do 4 eexists. eauto using moves.
  - left. eexists. apply step_moves. do 4 eexists. eauto using moves.
  - left. eexists. apply step_moves. do 4 eexists. eauto using moves.
  - left. eexists. apply step_moves. do 4 eexists. eauto using moves.
Qed.

Lemma unfinished_task ts :
  forallb done ts = false -> exists i t, ts !! i = Some t /\ done t = false.
Proof.
  induction ts as [| a ts IH]; simpl; [discriminate |].
  destruct (done a) eqn:Ha; simpl.
  - intros H. destruct (IH H) as (i & t & Hi & Ht). exists (S i), t. auto.
  - intros _. exists 0%nat, a. auto.
Qed.

Lemma runnable_or_idle ts :
  (exists i t, ts !! i = Some t /\ done t = false /\ waits_for_slot t = false) \/
  Forall (fun t => done t = true \/ waits_for_slot t = true) ts.
Proof.
  induction ts as [| a ts [(i & t & Hi & Ht) | IH]].
  - right. constructor.
  - left. exists (S i), t. auto.
  - destruct (done a) eqn:Hd; [right; constructor; auto |].
    destruct (waits_for_slot a) eqn:Hw; [right; constructor; auto |].
    left. exists 0%nat, a. auto.
Qed.

Lemma progress capacity w :
  gate_inv capacity w -> 0 < capacity ->
  forallb done (tasks w) = false ->
  exists i, can_move i w.
Proof.
  intros (Hv & Hsum & Hall) Hcap Hnot.
  destruct (runnable_or_idle (tasks w)) as [(i & t & Hi & Hd & Hw) | Hidle].
  { exists i. eauto using runnable_can_move. }
  (* every unfinished task waits for a slot: nobody holds one *)
  assert (Hfree : Forall (fun t => holding t = false) (tasks w)).
  { rewrite Forall_forall in *. intros t Hin.
    specialize (Hall t Hin). specialize (Hidle t Hin).
    unfold done, waits_for_slot in Hidle.
    destruct (code t); simpl in Hall; try (destruct Hidle; discriminate).
    - exact Hall.
    - apply Hall. }
  unfold holders in Hsum. rewrite (holding_count_free _ Hfree) in Hsum.
  destruct (unfinished_task _ Hnot) as (i & t & Hi & Hd).
  assert (Hw : waits_for_slot t = true).
  { rewrite Forall_lookup in Hidle. destruct (Hidle i t Hi); congruence. }
  exists i. left. unfold waits_for_slot in Hw.
  destruct (code t) eqn:Hc; try discriminate.
  eexists. apply step_moves. do 4 eexists.
  split; [eassumption |]. split; [| reflexivity].
  eapply moves_acquire; [eassumption | lia].
Qed.

(** ** Every run can be completed, whatever the network replies *)

Lemma exec_completes capacity net :
  0 < capacity ->
  forall b w ns,
    gate_inv capacity w -> budget (tasks w) ns -> sum_list ns = b ->
    exists sched w',
      exec sched w = Some w' /\ forallb done (tasks w') = true /\
      follows net sched w.
Proof.
  intros Hcap. induction b as [| b IH]; intros w ns Hinv Hb Hsum.
  - destruct (forallb done (tasks w)) eqn:Hd.
    + exists [], w. simpl. auto.
    + destruct (progress _ _ Hinv Hcap Hd) as (i & [(w1 & Hs) | Hs]).
      * destruct (step_budget _ _ _ _ Hs Hb) as (? & _ & ?). lia.
      * destruct (Hs (net w i)) as (w1 & Hs1).
        destruct (step_budget _ _ _ _ Hs1 Hb) as (? & _ & ?). lia.
  - destruct (forallb done (tasks w)) eqn:Hd.
    + exists [], w. simpl. auto.
    + assert (Hev : exists ev w1, step ev w = Some w1 /\
                      match ev with Deliver j o => o = net w j | Resume _ => True end).
      { destruct (progress _ _ Hinv Hcap Hd) as (i & [(w1 & Hs) | Hs]).
        - exists (Resume i), w1. auto.
        - destruct (Hs (net w i)) as (w1 & Hs1). exists (Deliver i (net w i)), w1. auto. }
      destruct Hev as (ev & w1 & Hs & Hnet).
      destruct (step_budget _ _ _ _ Hs Hb) as (ns1 & Hb1 & Hsum1).
      destruct (IH w1 ns1) as (sched & w' & Hex & Hdone & Hfol);
        [eauto using step_gate_inv | assumption | lia |].
      exists (ev :: sched), w'. simpl. rewrite Hs. auto.
Qed.

(** ** Tasks that never raise, and gather *)

Lemma step_never_raises ev w w' :
  step ev w = Some w' ->
  Forall (fun t => never_raises (code t)) (tasks w) ->
  Forall (fun t => never_raises (code t)) (tasks w').
Proof.
  intros H Hall.
  apply step_moves in H as (i & t & a & t' & Ht & Hm & ->).
  assert (Hn : never_raises (code t)) by (eapply Forall_lookup_1 in Hall; eauto).
  rewrite tasks_set_task, tasks_effect.
  apply Forall_insert; [assumption |].
  destruct Hm as [k Hk Hpos | k Hk | secs k Hk | r k Hk | k Hk | url k o Hk];
    rewrite Hk in Hn; simpl in *; auto.
Qed.

Lemma exec_never_raises sched w w' :
  exec sched w = Some w' ->
  Forall (fun t => never_raises (code t)) (tasks w) ->
  Forall (fun t => never_raises (code t)) (tasks w').
Proof.
  revert w. induction sched as [| ev sched IH]; intros w H Hall; simpl in H.
  - injection H as <-. exact Hall.
  - destruct (step ev w) as [w1 |] eqn:Hs; [| discriminate].
    eauto using step_never_raises.
Qed.

Lemma gather_returns ts :
  forallb done ts = true ->
  Forall (fun t => never_raises (code t)) ts ->
  exists results, gather ts = Some (inr results).
Proof.
  intros Hd Hn. unfold gather.
  assert (Hval : Forall (fun t => exists v, code t = Ret (inr v)) ts).
  { clear -Hd Hn. induction Hn as [| t ts Ht _ IH]; [constructor |].
    simpl in Hd. apply andb_true_iff in Hd as [Hd1 Hd2].
    constructor; [| auto].
    unfold done in Hd1. destruct (code t) as [[e | v] | | | | | |];
      try discriminate; simpl in Ht; [contradiction | eauto]. }
  clear Hd Hn.
  assert (Hno : omap raised ts = []).
  { induction Hval as [| t ts (v & Hv) _ IH]; [reflexivity |].
    simpl. unfold raised at 1. rewrite Hv. exact IH. }
  rewrite Hno.
  assert (Hall : exists results, mapM returned ts = Some results).
  { clear Hno. induction Hval as [| t ts (v & Hv) _ (results & IH)].
    { exists (@nil pyval). reflexivity. }
    exists (v :: results). apply mapM_Some. constructor.
    - unfold returned. rewrite Hv. reflexivity.
    - apply mapM_Some. exact IH. }
  destruct Hall as (results & ->). eauto.
Qed.

Lemma gather_inr ts results :
  gather ts = Some (inr results) ->
  Forall2 (fun t v => code t = Ret (inr v)) ts results.
Proof.
  unfold gather. destruct (omap raised ts); [| discriminate].
  destruct (mapM returned ts) as [vs |] eqn:Hm; simpl; [| discriminate].
  intros [= <-]. apply mapM_Some in Hm.
  eapply Forall2_impl; [exact Hm |].
  intros t v. unfold returned.
  destruct (code t) as [[e | v'] | | | | | |]; try discriminate.
  congruence.
Qed.

(** ** Each task against its own replies *)

Lemma performed_after {A : Type} a (r : option (A * list action)) :
  performed a r = after [a] r.
Proof. destruct r as [[v acts] |]; reflexivity. Qed.

Lemma after_nil {A : Type} (r : option (A * list action)) : after [] r = r.
Proof. destruct r as [[v acts] |]; reflexivity. Qed.

Lemma after_app {A : Type} acts1 acts2 (r : option (A * list action)) :
  after (acts1 ++ acts2) r = after acts1 (after acts2 r).
Proof. destruct r as [[v acts] |]; simpl; [rewrite app_assoc |]; reflexivity. Qed.

Lemma actions_of_app i tr1 tr2 :
  actions_of i (tr1 ++ tr2) = actions_of i tr1 ++ actions_of i tr2.
Proof. apply omap_app. Qed.

Lemma trace_step i t a w : trace (set_task i t (record i a (effect a w))) = trace w ++ [(i, a)].
Proof. destruct a; reflexivity. Qed.

(** A step of the event loop is a step of [run_task] for the task it
    resumes, and nothing for the others. *)
Lemma step_run_task ev w w' i t :
  step ev w = Some w' -> tasks w !! i = Some t ->
  exists t' acts,
    tasks w' !! i = Some t' /\
    actions_of i (trace w') = actions_of i (trace w) ++ acts /\
    forall rs, run_task (code t) (replies_to i [ev] ++ rs) =
               after acts (run_task (code t') rs).
Proof.
  intros H Hi.
  apply step_moves in H as (j & tj & a & tj' & Hj & Hm & ->).
  rewrite tasks_set_task, tasks_effect, trace_step, actions_of_app.
  destruct (decide (j = i)) as [-> | Hne].
  - rewrite Hj in Hi. injection Hi as ->.
    exists tj', [a]. split; [| split].
    + apply list_lookup_insert_eq. eapply lookup_lt_Some; eauto.
    + unfold actions_of at 3. simpl. rewrite Nat.eqb_refl. reflexivity.
    + intros rs.
      destruct Hm as [k Hk Hpos | k Hk | secs k Hk | r k Hk | k Hk | url k o Hk];
        rewrite Hk; simpl; rewrite ?Nat.eqb_refl; simpl;
        apply performed_after.
  - exists t, []. split; [| split].
    + rewrite list_lookup_insert_ne; auto.
    + unfold actions_of at 3. simpl.
      apply Nat.eqb_neq in Hne. rewrite Hne. reflexivity.
    + intros rs. rewrite after_nil.
      assert (Hnone : replies_to i [ev] = []).
      { destruct Hm; simpl; try reflexivity.
        apply Nat.eqb_neq in Hne. rewrite Hne. reflexivity. }
      rewrite Hnone. reflexivity.
Qed.

Lemma replies_to_cons i ev sched :
  replies_to i (ev :: sched) = replies_to i [ev] ++ replies_to i sched.
Proof.
  unfold replies_to. simpl. destruct ev as [j | j o]; [reflexivity |].
  destruct (Nat.eqb j i); reflexivity.
Qed.

Lemma exec_run_task sched w w' i t :
  exec sched w = Some w' -> tasks w !! i = Some t ->
  exists t' acts,
    tasks w' !! i = Some t' /\
    actions_of i (trace w') = actions_of i (trace w) ++ acts /\
    forall rs, run_task (code t) (replies_to i sched ++ rs) =
               after acts (run_task (code t') rs).
Proof.
  revert w t. induction sched as [| ev sched IH]; intros w t H Hi; simpl in H.
  - injection H as <-. exists t, []. rewrite app_nil_r.
    repeat split; auto. intros rs. rewrite after_nil. reflexivity.
  - destruct (step ev w) as [w1 |] eqn:Hs; [| discriminate].
    destruct (step_run_task _ _ _ _ _ Hs Hi) as (t1 & acts1 & Hi1 & Htr1 & H1).
    destruct (IH _ _ H Hi1) as (t' & acts' & Hi' & Htr' & H').
    exists t', (acts1 ++ acts'). split; [assumption |]. split.
    + rewrite Htr', Htr1, app_assoc. reflexivity.
    + intros rs. rewrite replies_to_cons, <- app_assoc, H1, H', after_app. reflexivity.
Qed.

(** ** The counter, the requests and the log follow the trace *)

Lemma increments_of_app acts1 acts2 :
  increments_of (acts1 ++ acts2) = increments_of acts1 + increments_of acts2.
Proof.
  unfold increments_of. rewrite List.filter_app, length_app. lia.
Qed.

Lemma step_outputs ev w w' :
  step ev w = Some w' ->
  exists i a,
    trace w' = trace w ++ [(i, a)] /\
    successful_fetches w' = successful_fetches w + increments_of [a] /\
    requests w' = requests w ++ requests_of [a] /\
    log w' = log w ++ logs_of [a].
Proof.
  intros H. apply step_moves in H as (i & t & a & t' & Ht & Hm & ->).
  exists i, a. destruct a; simpl; rewrite ?app_nil_r;
    repeat split; try reflexivity; unfold increments_of; simpl; lia.
Qed.

Lemma exec_outputs sched w w' :
  exec sched w = Some w' ->
  exists new,
    trace w' = trace w ++ new /\
    successful_fetches w' = successful_fetches w + increments_of (snd <$> new) /\
    requests w' = requests w ++ requests_of (snd <$> new) /\
    log w' = log w ++ logs_of (snd <$> new).
Proof.
  revert w. induction sched as [| ev sched IH]; intros w H; simpl in H.
  - injection H as <-. exists []. simpl. rewrite !app_nil_r.
    unfold increments_of. simpl. repeat split; auto. lia.
  - destruct (step ev w) as [w1 |] eqn:Hs; [| discriminate].
    destruct (step_outputs _ _ _ Hs) as (i & a & Ht1 & Hc1 & Hr1 & Hl1).
    destruct (IH _ H) as (new & Ht & Hc & Hr & Hl).
    exists ((i, a) :: new).
    rewrite Ht, Hc, Hr, Hl, Ht1, Hc1, Hr1, Hl1, <- !app_assoc.
    change (snd <$> (i, a) :: new) with ([a] ++ (snd <$> new)).
    rewrite increments_of_app.
    unfold requests_of, logs_of. rewrite !omap_app.
    repeat split; auto. lia.
Qed.

Lemma step_length ev w w' :
  step ev w = Some w' -> length (tasks w') = length (tasks w).
Proof.
  intros H. apply step_moves in H as (i & t & a & t' & Ht & Hm & ->).
  rewrite tasks_set_task, length_insert, tasks_effect. reflexivity.
Qed.

Lemma exec_length sched w w' :
  exec sched w = Some w' -> length (tasks w') = length (tasks w).
Proof.
  revert w. induction sched as [| ev sched IH]; intros w H; simpl in H.
  - injection H as <-. reflexivity.
  - destruct (step ev w) as [w1 |] eqn:Hs; [| discriminate].
    rewrite (IH _ H). eauto using step_length.
Qed.

Lemma gather_not_raised ts e :
  Forall (fun t => never_raises (code t)) ts -> gather ts <> Some (inl e).
Proof.
  intros Hn. unfold gather.
  assert (Hno : omap raised ts = []).
  { induction Hn as [| t ts Ht _ IH]; [reflexivity |].
    simpl. unfold raised at 1.
    destruct (code t) as [[e' | v] | | | | | |]; simpl in Ht; try exact IH.
    contradiction. }
  rewrite Hno. destruct (mapM returned ts); discriminate.
Qed.

(** ** The Scraper *)

Section ScraperProperties.

Variable raises_for_status : response -> bool.

Ltac fetch_json_paths :=
  unfold fetch_json, async_with_semaphore, try_except, and_then,
    client_get, raise_for_status, asyncio_sleep, logging,
    incr_successful_fetches, json, pure, raise;
  repeat (simpl;
          match goal with
          | |- _ /\ _ => split
          | |- forall _ : reply, _ => intros [[] | ?]
          | |- context [raises_for_status ?r] => destruct (raises_for_status r)
          | |- context [json_body ?r] => destruct (json_body r)
          end);
  simpl.

Lemma fetch_json_bracketed url : bracketed false (fetch_json raises_for_status url).
Proof. fetch_json_paths; auto. Qed.

Lemma fetch_json_never_raises url : never_raises (fetch_json raises_for_status url).
Proof. fetch_json_paths; auto. Qed.

Lemma fetch_json_within url : within 7 (fetch_json raises_for_status url).
Proof. fetch_json_paths; auto. Qed.

Lemma create_tasks_lookup urls i url :
  urls !! i = Some url ->
  create_tasks raises_for_status urls !! i =
    Some (Task (fetch_json raises_for_status url) false).
Proof. intros H. unfold create_tasks. rewrite list_lookup_fmap, H. reflexivity. Qed.

Lemma create_tasks_free urls :
  holding_count (create_tasks raises_for_status urls) = 0%nat.
Proof. induction urls as [| url urls IH]; simpl; auto. Qed.

Lemma started_gate_inv urls concurrency scraper :
  Scraper_init concurrency = inr scraper ->
  gate_inv concurrency (started raises_for_status urls scraper).
Proof.
  unfold Scraper_init. destruct (concurrency <? 0) eqn:Hc; [discriminate |].
  intros [= <-]. apply Z.ltb_ge in Hc.
  unfold gate_inv, holders, started. simpl. rewrite create_tasks_free.
  repeat split; try lia.
  unfold create_tasks. apply Forall_fmap, Forall_forall. intros url _.
  apply fetch_json_bracketed.
Qed.

Lemma started_never_raises urls scraper :
  Forall (fun t => never_raises (code t))
    (tasks (started raises_for_status urls scraper)).
Proof.
  unfold started, create_tasks. simpl. apply Forall_fmap, Forall_forall.
  intros url _. apply fetch_json_never_raises.
Qed.

Lemma started_budget urls scraper :
  budget (tasks (started raises_for_status urls scraper))
    (replicate (length urls) 7%nat).
Proof.
  unfold started, budget. simpl.
  induction urls as [| url urls IH]; simpl; constructor; auto.
  apply fetch_json_within.
Qed.

(** Whatever the network replies, [fetch_data] on a Scraper with at least
    one slot returns under some schedule. *)
Lemma fetch_data_returns urls concurrency scraper net :
  Scraper_init concurrency = inr scraper -> 0 < concurrency ->
  exists sched results w,
    follows net sched (started raises_for_status urls scraper) /\
    fetch_data raises_for_status urls sched scraper = Returns results w.
Proof.
  intros Hinit Hpos.
  destruct (exec_completes concurrency net Hpos _
              (started raises_for_status urls scraper) _
              (started_gate_inv urls _ _ Hinit) (started_budget urls scraper) eq_refl)
    as (sched & w & Hex & Hdone & Hfol).
  destruct (gather_returns (tasks w) Hdone) as (results & Hg).
  { eapply exec_never_raises; [exact Hex | apply started_never_raises]. }
  exists sched, results, (print (successful_fetches w) w).
  split; [exact Hfol |]. unfold fetch_data. rewrite Hex, Hg. reflexivity.
Qed.

(** No schedule of [fetch_data] is longer than seven actions per URL. *)
Lemma fetch_data_bounded urls scraper sched w :
  exec sched (started raises_for_status urls scraper) = Some w ->
  (length sched <= 7 * length urls)%nat.
Proof.
  intros H.
  destruct (exec_budget _ _ _ _ H (started_budget urls scraper)) as (ns & _ & Hsum).
  rewrite sum_list_replicate in Hsum. lia.
Qed.

(** A run that has not finished is never stuck. *)
Lemma fetch_data_never_stuck urls concurrency scraper sched w :
  Scraper_init concurrency = inr scraper -> 0 < concurrency ->
  exec sched (started raises_for_status urls scraper) = Some w ->
  forallb done (tasks w) = false ->
  exists i, can_move i w.
Proof.
  intros Hinit Hpos Hex Hd.
  eapply progress; eauto.
  eapply exec_gate_inv; eauto using started_gate_inv.
Qed.

(** What a finished [fetch_data] is made of: each task did, on its own
    replies, what [run_task] says, and the counter, the requests and the
    log are those of the trace. *)
Lemma fetch_data_tasks urls concurrency scraper sched results w :
  Scraper_init concurrency = inr scraper ->
  fetch_data raises_for_status urls sched scraper = Returns results w ->
  length results = length urls /\
  (forall i url, urls !! i = Some url ->
     exists v, results !! i = Some v /\
       run_task (fetch_json raises_for_status url) (replies_to i sched) =
         Some (inr v, actions_of i (trace w))) /\
  successful_fetches w = increments_of (snd <$> trace w) /\
  requests w = requests_of (snd <$> trace w) /\
  log w = logs_of (snd <$> trace w).
Proof.
  intros Hinit H. unfold fetch_data in H.
  destruct (exec sched (started raises_for_status urls scraper)) as [w1 |] eqn:Hex;
    [| discriminate].
  destruct (gather (tasks w1)) as [[e | vs] |] eqn:Hg; try discriminate.
  injection H as -> <-.
  apply gather_inr in Hg.
  assert (Hfresh : trace scraper = [] /\ successful_fetches scraper = 0 /\
                   requests scraper = [] /\ log scraper = []).
  { unfold Scraper_init in Hinit. destruct (concurrency <? 0); [discriminate |].
    injection Hinit as <-. auto. }
  destruct Hfresh as (Ht0 & Hc0 & Hr0 & Hl0).
  split; [| split].
  - rewrite <- (Forall2_length _ _ _ Hg), (exec_length _ _ _ Hex).
    unfold started, create_tasks. simpl. apply length_fmap.
  - intros i url Hi.
    destruct (exec_run_task _ _ _ i _ Hex (create_tasks_lookup _ _ _ Hi))
      as (t' & acts & Hi' & Htr & Hrun).
    destruct (Forall2_lookup_l _ _ _ _ _ Hg Hi') as (v & Hv & Hcode).
    exists v. split; [exact Hv |].
    specialize (Hrun []). rewrite app_nil_r, Hcode in Hrun.
    change (run_task (fetch_json raises_for_status url) (replies_to i sched) =
            Some (inr v, acts ++ [])) in Hrun.
    rewrite app_nil_r in Hrun.
    change (actions_of i (trace w1) = actions_of i (trace scraper) ++ acts) in Htr.
    rewrite Ht0 in Htr.
    change (trace (print (successful_fetches w1) w1)) with (trace w1).
    rewrite Hrun, Htr. reflexivity.
  - destruct (exec_outputs _ _ _ Hex) as (new & Ht & Hc & Hr & Hl).
    simpl in *. rewrite Ht0 in Ht. rewrite Hc0 in Hc. rewrite Hr0 in Hr.
    rewrite Hl0 in Hl. simpl in *. subst new. repeat split; auto.
Qed.

(** The GETs of one fetch are GETs of its own URL, one or two of them. *)
Lemma fetch_json_requests url replies v acts :
  run_task (fetch_json raises_for_status url) replies = Some (inr v, acts) ->
  requests_of acts = [url] \/ requests_of acts = [url; url].
Proof.
  unfold fetch_json, raise_for_status, json; simpl.
  destruct replies as [| [[] | r1] replies]; simpl; try discriminate;
    try (intros [= <- <-]; auto; fail).
  - destruct replies as [| [e2 | r2] replies]; simpl; try discriminate;
      intros [= <- <-]; auto.
  - destruct (raises_for_status r1); simpl; [intros [= <- <-]; auto |].
    destruct (json_body r1); simpl; intros [= <- <-]; auto.
Qed.

(** C1. For every list of URLs, [fetch_data] returns: whatever the network
    replies there is a schedule under which it does, no schedule is longer
    than seven actions per URL, and as long as a task has not returned some
    task can move.  Under every schedule, that is in whatever order the
    fetches complete, the list it returns is as long as the input, and its
    entry [i] is the result of request [i]: the actions that task [i]
    performed in the run, its GETs of URL [i] among them, are those of
    [fetch_json] of URL [i] on the replies the network gave to that task,
    and the entry is the value that fetch ended in.  When the list of URLs
    is not empty, [run] returns that same list. *)
Theorem fetch_data_keeps_input_order urls concurrency scraper :
  Scraper_init concurrency = inr scraper -> 0 < concurrency ->
  (forall net, exists sched results w,
      follows net sched (started raises_for_status urls scraper) /\
      fetch_data raises_for_status urls sched scraper = Returns results w) /\
  (forall sched w,
      exec sched (started raises_for_status urls scraper) = Some w ->
      (length sched <= 7 * length urls)%nat /\
      (forallb done (tasks w) = false -> exists i, can_move i w)) /\
  (forall sched results w,
      fetch_data raises_for_status urls sched scraper = Returns results w ->
      length results = length urls /\
      forall i url, urls !! i = Some url ->
        exists v, results !! i = Some v /\
          run_task (fetch_json raises_for_status url) (replies_to i sched) =
            Some (inr v, actions_of i (trace w)) /\
          (requests_of (actions_of i (trace w)) = [url] \/
           requests_of (actions_of i (trace w)) = [url; url])) /\
  (forall sched ret w,
      run raises_for_status urls concurrency sched = Returns ret w ->
      urls <> [] ->
      exists data,
        ret = Some data /\
        length data = length urls /\
        forall i url, urls !! i = Some url ->
          exists v, data !! i = Some v /\
            run_task (fetch_json raises_for_status url) (replies_to i sched) =
              Some (inr v, actions_of i (trace w)) /\
            (requests_of (actions_of i (trace w)) = [url] \/
             requests_of (actions_of i (trace w)) = [url; url])).
Proof.
  intros Hinit Hpos.
  assert (Haligned : forall sched results w,
             fetch_data raises_for_status urls sched scraper = Returns results w ->
             length results = length urls /\
             forall i url, urls !! i = Some url ->
               exists v, results !! i = Some v /\
                 run_task (fetch_json raises_for_status url) (replies_to i sched) =
                   Some (inr v, actions_of i (trace w)) /\
                 (requests_of (actions_of i (trace w)) = [url] \/
                  requests_of (actions_of i (trace w)) = [url; url])).
  { intros sched results w H.
    destruct (fetch_data_tasks _ _ _ _ _ _ Hinit H) as (Hlen & Htasks & _).
    split; [exact Hlen |]. intros i url Hi.
    destruct (Htasks i url Hi) as (v & Hv & Hrun).
    exists v. split; [exact Hv |]. split; [exact Hrun |].
    exact (fetch_json_requests _ _ _ _ Hrun). }
  split; [| split; [| split]].
  - intros net. eapply fetch_data_returns; eauto.
  - intros sched w Hex. split.
    + eapply fetch_data_bounded; eauto.
    + eapply fetch_data_never_stuck; eauto.
  - exact Haligned.
  - intros sched ret w H Hne. unfold run in H. rewrite Hinit in H.
    destruct (fetch_data raises_for_status urls sched scraper) as [data w0 | e |] eqn:Hfd;
      try discriminate.
    destruct (Haligned _ _ _ Hfd) as (Hlen & Htasks).
    destruct data as [| v0 data].
    + destruct urls; [congruence | discriminate].
    + simpl in H. injection H as <- <-.
      exists (v0 :: data). split; [reflexivity |]. split; [exact Hlen |].
      exact Htasks.
Qed.

(** The alignment is with the request at the same index and with no other
    URL: what task [i] did in the run is not what a fetch of a different
    URL does. *)
Lemma entry_of_no_other_url urls concurrency scraper sched results w i url url' v :
  Scraper_init concurrency = inr scraper ->
  fetch_data raises_for_status urls sched scraper = Returns results w ->
  urls !! i = Some url ->
  run_task (fetch_json raises_for_status url') (replies_to i sched) =
    Some (inr v, actions_of i (trace w)) ->
  url' = url.
Proof.
  intros Hinit H Hi Hother.
  destruct (fetch_data_tasks _ _ _ _ _ _ Hinit H) as (_ & Htasks & _).
  destruct (Htasks i url Hi) as (v0 & _ & Hrun).
  apply fetch_json_requests in Hrun. apply fetch_json_requests in Hother.
  destruct Hrun as [Hr | Hr]; rewrite Hr in Hother;
    destruct Hother as [Ho | Ho]; congruence.
Qed.

(** C5. When the primary GET fails at the transport level, [fetch_json]
    logs the request error, issues exactly one more GET of the same URL
    and returns [None] whatever that retry brings: two GETs in all. *)
Theorem transport_failure_retried_once url :
  (forall retry rest, exists acts,
      run_task (fetch_json raises_for_status url) (inl RequestError :: retry :: rest) =
        Some (inr PNone, acts) /\
      acts = [AAcquire; AGet url; ALog (ERROR_request url); AGet url; ARelease] /\
      requests_of acts = [url; url]) /\
  (forall urls concurrency scraper sched results w i rest,
      Scraper_init concurrency = inr scraper ->
      fetch_data raises_for_status urls sched scraper = Returns results w ->
      urls !! i = Some url ->
      replies_to i sched = inl RequestError :: rest ->
      results !! i = Some PNone /\
      requests_of (actions_of i (trace w)) = [url; url]).
Proof.
  assert (Hseq : forall retry rest,
             run_task (fetch_json raises_for_status url)
               (inl RequestError :: retry :: rest) =
               Some (inr PNone,
                     [AAcquire; AGet url; ALog (ERROR_request url); AGet url; ARelease])).
  { intros [e | r] rest; reflexivity. }
  split.
  - intros retry rest. eexists. split; [apply Hseq |]. split; reflexivity.
  - intros urls concurrency scraper sched results w i rest Hinit Hfd Hi Hrs.
    destruct (fetch_data_tasks _ _ _ _ _ _ Hinit Hfd) as (_ & Htasks & _).
    destruct (Htasks i url Hi) as (v & Hv & Hrun).
    rewrite Hrs in Hrun. destruct rest as [| retry rest]; [discriminate |].
    rewrite Hseq in Hrun. injection Hrun as <- <-. auto.
Qed.

(** C7. Whatever the URL and whatever the network replies, [fetch_json]
    ends in a value and never in an exception; that value is [None] when
    the GET raised (any exception), when [raise_for_status] raised and
    when the body could not be decoded, and the decoded body otherwise.
    No exception reaches the caller of [fetch_data] either. *)
Theorem fetch_json_absorbs_failures url (primary retry : reply) (rest : list reply) :
  (exists v acts,
      run_task (fetch_json raises_for_status url) (primary :: retry :: rest) =
        Some (inr v, acts) /\
      match primary with
      | inl _ => v = PNone
      | inr r =>
          if raises_for_status r then v = PNone
          else match json_body r with
               | Some payload => v = payload
               | None => v = PNone
               end
      end) /\
  (forall replies r acts,
      run_task (fetch_json raises_for_status url) replies = Some (r, acts) ->
      exists v, r = inr v) /\
  (forall urls sched scraper e,
      fetch_data raises_for_status urls sched scraper <> Raises e).
Proof.
  split; [| split].
  - destruct primary as [[] | r]; [destruct retry; simpl; eauto .. |].
    unfold fetch_json, raise_for_status, json; simpl.
    destruct (raises_for_status r); simpl; [eauto |].
    destruct (json_body r); simpl; eauto.
  - intros replies r acts.
    unfold fetch_json, raise_for_status, json; simpl.
    destruct replies as [| [[] | r1] replies]; simpl; try discriminate;
      try (intros [= <- _]; eauto; fail);
      try (destruct replies as [| [e2 | r2] replies]; simpl; try discriminate;
           intros [= <- _]; eauto; fail).
    destruct (raises_for_status r1); simpl; [intros [= <- _]; eauto |].
    destruct (json_body r1); simpl; intros [= <- _]; eauto.
  - intros urls sched scraper e. unfold fetch_data.
    destruct (exec sched (started raises_for_status urls scraper)) as [w |] eqn:Hex;
      [| discriminate].
    pose proof (exec_never_raises _ _ _ Hex (started_never_raises urls scraper)) as Hn.
    destruct (gather (tasks w)) as [[e' | vs] |] eqn:Hg; try discriminate.
    exfalso. eapply gather_not_raised; eauto.
Qed.

(** C6. A response with a 4xx/5xx status makes [fetch_json] return [None]
    after that one GET, with no retry, and with one log record, the HTTP
    error; in a run, these are the requests and the log records of the
    task that received the response. *)
Theorem http_status_failure_not_retried url (r : response) :
  (forall r', 400 <= status_code r' <= 599 -> raises_for_status r' = true) ->
  400 <= status_code r <= 599 ->
  (forall rest, exists acts,
      run_task (fetch_json raises_for_status url) (inr r :: rest) =
        Some (inr PNone, acts) /\
      acts = [AAcquire; AGet url; ALog (ERROR_http url); ARelease]) /\
  (forall urls concurrency scraper sched results w i rest,
      Scraper_init concurrency = inr scraper ->
      fetch_data raises_for_status urls sched scraper = Returns results w ->
      urls !! i = Some url ->
      replies_to i sched = inr r :: rest ->
      results !! i = Some PNone /\
      requests_of (actions_of i (trace w)) = [url] /\
      logs_of (actions_of i (trace w)) = [ERROR_http url] /\
      is_error_record (ERROR_http url) = true).
Proof.
  intros Hhttpx Hr.
  assert (Hseq : forall rest,
             run_task (fetch_json raises_for_status url) (inr r :: rest) =
               Some (inr PNone, [AAcquire; AGet url; ALog (ERROR_http url); ARelease])).
  { intros rest. unfold fetch_json, raise_for_status; simpl.
    rewrite (Hhttpx r Hr). reflexivity. }
  split.
  - intros rest. eauto.
  - intros urls concurrency scraper sched results w i rest Hinit Hfd Hi Hrs.
    destruct (fetch_data_tasks _ _ _ _ _ _ Hinit Hfd) as (_ & Htasks & _).
    destruct (Htasks i url Hi) as (v & Hv & Hrun).
    rewrite Hrs, Hseq in Hrun. injection Hrun as <- <-. auto.
Qed.

(** C8. A response with a 2xx status and a body that decodes makes
    [fetch_json] return the decoded body and increment
    [successful_fetches] once, by one; in a run, the entry of the task is
    that body and the task's share of the counter is one. *)
Theorem successful_fetch_returns_payload url (r : response) (payload : pyval) :
  (forall r', 200 <= status_code r' <= 299 -> raises_for_status r' = false) ->
  200 <= status_code r <= 299 ->
  json_body r = Some payload ->
  (forall rest, exists acts,
      run_task (fetch_json raises_for_status url) (inr r :: rest) =
        Some (inr payload, acts) /\
      acts = [AAcquire; AGet url; ASleep 1; ALog (INFO_fetched url); AIncr; ARelease] /\
      increments_of acts = 1) /\
  (forall w, successful_fetches (effect AIncr w) = successful_fetches w + 1) /\
  (forall urls concurrency scraper sched results w i rest,
      Scraper_init concurrency = inr scraper ->
      fetch_data raises_for_status urls sched scraper = Returns results w ->
      urls !! i = Some url ->
      replies_to i sched = inr r :: rest ->
      results !! i = Some payload /\
      increments_of (actions_of i (trace w)) = 1).
Proof.
  intros Hhttpx Hr Hbody.
  assert (Hseq : forall rest,
             run_task (fetch_json raises_for_status url) (inr r :: rest) =
               Some (inr payload,
                     [AAcquire; AGet url; ASleep 1; ALog (INFO_fetched url); AIncr;
                      ARelease])).
  { intros rest. unfold fetch_json, raise_for_status, json; simpl.
    rewrite (Hhttpx r Hr). simpl. rewrite Hbody. reflexivity. }
  split; [| split].
  - intros rest. eexists. split; [apply Hseq |]. split; reflexivity.
  - reflexivity.
  - intros urls concurrency scraper sched results w i rest Hinit Hfd Hi Hrs.
    destruct (fetch_data_tasks _ _ _ _ _ _ Hinit Hfd) as (_ & Htasks & _).
    destruct (Htasks i url Hi) as (v & Hv & Hrun).
    rewrite Hrs, Hseq in Hrun. injection Hrun as <- <-. auto.
Qed.

(** C9. At every point of every run, under every interleaving, the tasks
    inside [async with self.semaphore] are at most [concurrency]. *)
Theorem gate_capacity_respected urls concurrency scraper sched w :
  Scraper_init concurrency = inr scraper ->
  exec sched (started raises_for_status urls scraper) = Some w ->
  Z.of_nat (holders w) <= concurrency.
Proof.
  intros Hinit Hex.
  destruct (exec_gate_inv concurrency _ _ _ Hex (started_gate_inv urls _ _ Hinit))
    as (Hv & Hsum & _).
  lia.
Qed.

Lemma exec_no_tasks sched w w' :
  tasks w = [] -> exec sched w = Some w' -> sched = [].
Proof.
  intros Hts. destruct sched as [| ev sched]; [reflexivity |]. simpl.
  destruct ev as [i | i o]; simpl; rewrite Hts; discriminate.
Qed.

(** C4, as the code has it. On the empty list [fetch_data] returns the
    empty list, with a count of zero and without a GET; [run] then logs
    that no data was fetched and returns [None], under the only schedule
    there is. *)
Theorem run_on_empty_input concurrency :
  0 <= concurrency ->
  fetch_data raises_for_status [] [] (World concurrency 0 false [] [] [] [] []) =
    Returns [] (World concurrency 0 false [] [] [] [0] []) /\
  run raises_for_status [] concurrency [] =
    Returns None (World concurrency 0 true [] [] [ERROR_no_data] [0] []) /\
  (forall sched ret w,
      run raises_for_status [] concurrency sched = Returns ret w ->
      sched = [] /\ ret = None /\ requests w = [] /\ successful_fetches w = 0).
Proof.
  intros Hc.
  assert (Hinit : Scraper_init concurrency =
                    inr (World concurrency 0 false [] [] [] [] [])).
  { unfold Scraper_init. apply Z.ltb_ge in Hc. rewrite Hc. reflexivity. }
  assert (Hrun : run raises_for_status [] concurrency [] =
                   Returns None (World concurrency 0 true [] [] [ERROR_no_data] [0] [])).
  { unfold run. rewrite Hinit. reflexivity. }
  split; [reflexivity |]. split; [exact Hrun |].
  intros sched ret w H.
  assert (Hs : sched = []).
  { unfold run in H. rewrite Hinit in H. unfold fetch_data in H.
    destruct (exec sched _) as [w1 |] eqn:Hex; [| discriminate].
    eapply exec_no_tasks; [| exact Hex]. reflexivity. }
  subst sched. rewrite Hrun in H. injection H as <- <-. auto.
Qed.

(** C10. With at least one slot, [run] returns whatever the network
    replies, and what it returns is [None] exactly when the list of URLs
    is empty: for a list that is not empty it is a list of the same
    length, also when every entry of it is [None]. *)
Theorem run_returns_None_iff_empty urls concurrency :
  0 < concurrency ->
  (forall net, exists sched ret w,
      follows net sched
        (started raises_for_status urls (World concurrency 0 false [] [] [] [] [])) /\
      run raises_for_status urls concurrency sched = Returns ret w) /\
  (forall sched ret w,
      run raises_for_status urls concurrency sched = Returns ret w ->
      (ret = None <-> urls = []) /\
      (urls <> [] -> exists data, ret = Some data /\ length data = length urls)).
Proof.
  intros Hpos.
  assert (Hinit : Scraper_init concurrency =
                    inr (World concurrency 0 false [] [] [] [] [])).
  { unfold Scraper_init. destruct (Z.ltb_spec concurrency 0); [lia | reflexivity]. }
  split.
  - intros net.
    destruct (fetch_data_returns urls _ _ net Hinit Hpos)
      as (sched & results & w & Hfol & Hfd).
    exists sched. unfold run. rewrite Hinit, Hfd.
    destruct (truthy results); eauto.
  - intros sched ret w H. unfold run in H. rewrite Hinit in H.
    destruct (fetch_data raises_for_status urls sched _) as [data w0 | e |] eqn:Hfd;
      try discriminate.
    destruct (fetch_data_tasks _ _ _ _ _ _ Hinit Hfd) as (Hlen & _).
    destruct data as [| v data]; simpl in H; injection H as <- <-.
    + destruct urls; [| discriminate]. split; [tauto |]. intros Hne. congruence.
    + destruct urls; [discriminate |]. split.
      * split; discriminate.
      * intros _. eauto.
Qed.

End ScraperProperties.

(** ** httpx's [raise_for_status] *)

Lemma httpx_raises_on_error_status r :
  400 <= status_code r <= 599 -> httpx_raises_for_status r = true.
Proof.
  intros Hr. unfold httpx_raises_for_status.
  apply negb_true_iff, andb_false_iff. right. apply Z.leb_gt. lia.
Qed.

Lemma httpx_passes_on_success_status r :
  200 <= status_code r <= 299 -> httpx_raises_for_status r = false.
Proof.
  intros Hr. unfold httpx_raises_for_status.
  apply negb_false_iff, andb_true_iff. split; apply Z.leb_le; lia.
Qed.

(** ** The claims on concrete runs *)

Example second_first_run :
  exists w,
    run httpx_raises_for_status ["a"; "b"] 1 second_first =
      Returns (Some [PInt 7; PNone]) w /\
    requests w = ["b"; "b"; "a"] /\
    log w = [ERROR_request "b"; INFO_fetched "a"] /\
    successful_fetches w = 1 /\
    printed w = [1] /\
    client_closed w = true.
Proof. eexists. vm_compute. repeat split; reflexivity. Qed.

(** C2 on the code: a URL that answers 200 with a body that is not JSON is
    counted in [successful_fetches], and its entry is [None]. *)
Lemma undecodable_response_is_counted :
  exists w,
    run httpx_raises_for_status ["u"] 10 undecodable = Returns (Some [PNone]) w /\
    successful_fetches w = 1 /\
    printed w = [1] /\
    non_absent_count [PNone] = 0 /\
    log w = [INFO_fetched "u"; ERROR_unexpected "u"].
Proof. eexists. vm_compute. repeat split; reflexivity. Qed.

(** C3 on the code: a run in which the only fetch failed returns the list
    [[None]], and logs nothing about missing data. *)
Lemma all_failed_run_returns_list :
  exists w,
    run httpx_raises_for_status ["u"] 10 unreachable = Returns (Some [PNone]) w /\
    log w = [ERROR_request "u"] /\
    successful_fetches w = 0.
Proof. eexists. vm_compute. repeat split; reflexivity. Qed.

(** C4 as stated fails: on the empty list [run] returns [None], and no
    schedule makes it return the empty list. *)
Lemma run_empty_is_not_empty_list :
  run httpx_raises_for_status [] 10 [] =
    Returns None (World 10 0 true [] [] [ERROR_no_data] [0] []) /\
  ~ (exists sched w, run httpx_raises_for_status [] 10 sched = Returns (Some []) w).
Proof.
  split; [reflexivity |].
  intros (sched & w & H). unfold run in H. simpl in H. unfold fetch_data in H.
  destruct (exec sched _) as [w1 |] eqn:Hex; [| discriminate].
  assert (Hs : sched = []) by (eapply exec_no_tasks; [| exact Hex]; reflexivity).
  subst sched. injection Hex as <-. vm_compute in H. discriminate.
Qed.

(** ** The theorems at concrete inputs *)

Lemma fetch_data_keeps_input_order_witness :
  Scraper_init 1 = inr one_slot /\ 0 < 1 /\
  ((forall net, exists sched results w,
       follows net sched (started httpx_raises_for_status ["a"; "b"] one_slot) /\
       fetch_data httpx_raises_for_status ["a"; "b"] sched one_slot = Returns results w) /\
   (forall sched w,
       exec sched (started httpx_raises_for_status ["a"; "b"] one_slot) = Some w ->
       (length sched <= 7 * length ["a"; "b"])%nat /\
       (forallb done (tasks w) = false -> exists i, can_move i w)) /\
   (forall sched results w,
       fetch_data httpx_raises_for_status ["a"; "b"] sched one_slot = Returns results w ->
       length results = length ["a"; "b"] /\
       forall i url, ["a"; "b"] !! i = Some url ->
         exists v, results !! i = Some v /\
           run_task (fetch_json httpx_raises_for_status url) (replies_to i sched) =
             Some (inr v, actions_of i (trace w)) /\
           (requests_of (actions_of i (trace w)) = [url] \/
            requests_of (actions_of i (trace w)) = [url; url])) /\
   (forall sched ret w,
       run httpx_raises_for_status ["a"; "b"] 1 sched = Returns ret w ->
       ["a"; "b"] <> @nil string ->
       exists data,
         ret = Some data /\
         length data = length ["a"; "b"] /\
         forall i url, ["a"; "b"] !! i = Some url ->
           exists v, data !! i = Some v /\
             run_task (fetch_json httpx_raises_for_status url) (replies_to i sched) =
               Some (inr v, actions_of i (trace w)) /\
             (requests_of (actions_of i (trace w)) = [url] \/
              requests_of (actions_of i (trace w)) = [url; url]))).
Proof.
  split; [reflexivity |]. split; [reflexivity |].
  apply (fetch_data_keeps_input_order httpx_raises_for_status ["a"; "b"] 1 one_slot);
    reflexivity.
Defined.

Lemma transport_failure_retried_once_witness :
  exists results w,
    fetch_data httpx_raises_for_status ["a"; "b"] second_first one_slot =
      Returns results w /\
    results !! 1%nat = Some PNone /\
    requests_of (actions_of 1 (trace w)) = ["b"; "b"].
Proof.
  do 2 eexists. split; [vm_compute; reflexivity |].
  apply (proj2 (transport_failure_retried_once httpx_raises_for_status "b")
           ["a"; "b"] 1 one_slot second_first _ _ 1%nat [inl OtherException]);
    reflexivity.
Defined.

Lemma http_status_failure_not_retried_witness :
  (forall r', 400 <= status_code r' <= 599 -> httpx_raises_for_status r' = true) /\
  400 <= status_code (Response 404 None) <= 599 /\
  forall rest, exists acts,
    run_task (fetch_json httpx_raises_for_status "u") (inr (Response 404 None) :: rest) =
      Some (inr PNone, acts) /\
    acts = [AAcquire; AGet "u"; ALog (ERROR_http "u"); ARelease].
Proof.
  split; [exact httpx_raises_on_error_status |].
  split; [simpl; lia |].
  apply (http_status_failure_not_retried httpx_raises_for_status "u" (Response 404 None));
    [exact httpx_raises_on_error_status | simpl; lia].
Defined.

Lemma fetch_json_absorbs_failures_witness :
  exists r acts,
    run_task (fetch_json httpx_raises_for_status "u") [inl OtherException] =
      Some (r, acts) /\
    exists v, r = inr v.
Proof.
  do 2 eexists. split; [reflexivity |].
  apply (proj1 (proj2 (fetch_json_absorbs_failures httpx_raises_for_status "u"
                         (inl OtherException) (inl OtherException) []))
           [inl OtherException] (inr PNone)
           [AAcquire; AGet "u"; ALog (ERROR_unexpected "u"); ARelease]).
  reflexivity.
Defined.

Lemma successful_fetch_returns_payload_witness :
  (forall r', 200 <= status_code r' <= 299 -> httpx_raises_for_status r' = false) /\
  200 <= status_code (Response 200 (Some (PInt 7))) <= 299 /\
  json_body (Response 200 (Some (PInt 7))) = Some (PInt 7) /\
  forall rest, exists acts,
    run_task (fetch_json httpx_raises_for_status "u")
      (inr (Response 200 (Some (PInt 7))) :: rest) = Some (inr (PInt 7), acts) /\
    acts = [AAcquire; AGet "u"; ASleep 1; ALog (INFO_fetched "u"); AIncr; ARelease] /\
    increments_of acts = 1.
Proof.
  split; [exact httpx_passes_on_success_status |].
  split; [simpl; lia |]. split; [reflexivity |].
  apply (successful_fetch_returns_payload httpx_raises_for_status "u"
           (Response 200 (Some (PInt 7))) (PInt 7));
    [exact httpx_passes_on_success_status | simpl; lia | reflexivity].
Defined.

Lemma gate_capacity_respected_witness :
  exists w,
    Scraper_init 1 = inr one_slot /\
    exec second_holds (started httpx_raises_for_status ["a"; "b"] one_slot) = Some w /\
    holders w = 1%nat /\
    Z.of_nat (holders w) <= 1.
Proof.
  eexists. split; [reflexivity |]. split; [vm_compute; reflexivity |].
  split; [reflexivity |].
  apply (gate_capacity_respected httpx_raises_for_status ["a"; "b"] 1 one_slot second_holds);
    reflexivity.
Defined.

Lemma run_on_empty_input_witness :
  0 <= 10 /\
  fetch_data httpx_raises_for_status [] [] (World 10 0 false [] [] [] [] []) =
    Returns [] (World 10 0 false [] [] [] [0] []) /\
  run httpx_raises_for_status [] 10 [] =
    Returns None (World 10 0 true [] [] [ERROR_no_data] [0] []) /\
  (forall sched ret w,
      run httpx_raises_for_status [] 10 sched = Returns ret w ->
      sched = [] /\ ret = None /\ requests w = [] /\ successful_fetches w = 0).
Proof.
  split; [discriminate |].
  apply (run_on_empty_input httpx_raises_for_status 10). discriminate.
Defined.

Lemma run_returns_None_iff_empty_witness :
  0 < 1 /\
  exists ret w,
    run httpx_raises_for_status ["a"; "b"] 1 second_first = Returns ret w /\
    (ret = None <-> ["a"; "b"] = @nil string) /\
    (["a"; "b"] <> @nil string ->
     exists data, ret = Some data /\ length data = length ["a"; "b"]).
Proof.
  split; [reflexivity |].
  do 2 eexists. split; [vm_compute; reflexivity |].
  eapply (proj2 (run_returns_None_iff_empty httpx_raises_for_status ["a"; "b"] 1 eq_refl)
            second_first).
  vm_compute. reflexivity.
Defined.


(** * Further properties of the Scraper *)

(** ** Sums over the tasks *)

Lemma sumZ_ext f g n :
  (forall i, (i < n)%nat -> f i = g i) -> sumZ f n = sumZ g n.
Proof.
  induction n as [| n IH]; intros H; simpl; [reflexivity |].
  rewrite IH, (H n); auto with lia.
Qed.

Lemma sumZ_le f g n :
  (forall i, (i < n)%nat -> f i <= g i) -> sumZ f n <= sumZ g n.
Proof.
  induction n as [| n IH]; intros H; simpl; [lia |].
  specialize (H n (Nat.lt_succ_diag_r n)) as Hn.
  assert (sumZ f n <= sumZ g n) by (apply IH; auto with lia). lia.
Qed.

Lemma sumZ_const c n : sumZ (fun _ => c) n = Z.of_nat n * c.
Proof. induction n as [| n IH]; simpl; [lia |]. rewrite IH. lia. Qed.

Lemma sumZ_add f g n : sumZ (fun i => f i + g i) n = sumZ f n + sumZ g n.
Proof. induction n as [| n IH]; simpl; [lia |]. rewrite IH. lia. Qed.

Lemma sumZ_pick j x n :
  (j < n)%nat -> sumZ (fun i => if Nat.eqb j i then x else 0) n = x.
Proof.
  induction n as [| n IH]; intros Hj; [lia |]. simpl.
  destruct (Nat.eqb_spec j n) as [-> | Hne].
  - rewrite (sumZ_ext _ (fun _ => 0)), sumZ_const; [lia |].
    intros i Hi. destruct (Nat.eqb_spec n i); [lia | reflexivity].
  - rewrite IH; lia.
Qed.

(** A measure of action lists that adds up over concatenation is, on a
    trace, the sum of its values on the tasks' own actions. *)
Lemma measure_by_task (m : list action -> Z) n tr :
  m [] = 0 -> (forall acts1 acts2, m (acts1 ++ acts2) = m acts1 + m acts2) ->
  Forall (fun ia => (fst ia < n)%nat) tr ->
  m (snd <$> tr) = sumZ (fun i => m (actions_of i tr)) n.
Proof.
  intros Hnil Happ. induction 1 as [| [j a] tr Hj _ IH].
  - simpl. rewrite (sumZ_ext _ (fun _ => 0)), sumZ_const; [lia | intros; exact Hnil].
  - rewrite fmap_cons. simpl in Hj. simpl snd.
    pose proof (Happ [a] (snd <$> tr)) as Hcons. cbn [app] in Hcons.
    rewrite Hcons, IH.
    rewrite (sumZ_ext (fun i => m (actions_of i ((j, a) :: tr)))
               (fun i => (if Nat.eqb j i then m [a] else 0) + m (actions_of i tr))).
    + rewrite sumZ_add, sumZ_pick; [reflexivity | exact Hj].
    + intros i _. unfold actions_of. simpl.
      destruct (Nat.eqb j i); [| rewrite Z.add_0_l; reflexivity].
      apply (Happ [a]).
Qed.

Lemma non_absent_count_by_index results :
  non_absent_count results =
    sumZ (fun i => match results !! i with
                   | Some v => if is_absent v then 0 else 1
                   | None => 0
                   end) (length results).
Proof.
  induction results as [| v results IH] using rev_ind; [reflexivity |].
  rewrite length_app. simpl length.
  replace (length results + 1)%nat with (S (length results)) by lia.
  cbn [sumZ].
  rewrite (sumZ_ext (fun i => match (results ++ [v]) !! i with
                              | Some v0 => if is_absent v0 then 0 else 1
                              | None => 0
                              end)
             (fun i => match results !! i with
                       | Some v0 => if is_absent v0 then 0 else 1
                       | None => 0
                       end)).
  2: { intros i Hi. rewrite lookup_app_l by lia. reflexivity. }
  rewrite <- IH, lookup_app_r, Nat.sub_diag by lia. simpl.
  unfold non_absent_count. rewrite List.filter_app, length_app. simpl.
  destruct (is_absent v); simpl; lia.
Qed.

(** ** What the event loop leaves alone *)

Lemma step_frame ev w w' :
  step ev w = Some w' ->
  printed w' = printed w /\ client_closed w' = client_closed w /\
  exists i a, trace w' = trace w ++ [(i, a)] /\ (i < length (tasks w))%nat.
Proof.
  intros H. apply step_moves in H as (i & t & a & t' & Ht & Hm & ->).
  apply lookup_lt_Some in Ht.
  destruct a; simpl; repeat split; eauto.
Qed.

Lemma exec_frame sched w w' :
  exec sched w = Some w' ->
  printed w' = printed w /\ client_closed w' = client_closed w /\
  exists new, trace w' = trace w ++ new /\
              Forall (fun ia => (fst ia < length (tasks w))%nat) new.
Proof.
  revert w. induction sched as [| ev sched IH]; intros w H; simpl in H.
  - injection H as <-. repeat split; auto. exists []. rewrite app_nil_r. auto.
  - destruct (step ev w) as [w1 |] eqn:Hs; [| discriminate].
    destruct (step_frame _ _ _ Hs) as (Hp1 & Hc1 & i & a & Ht1 & Hi).
    destruct (IH _ H) as (Hp & Hc & new & Ht & Hall).
    rewrite (step_length _ _ _ Hs) in Hall.
    repeat split; [congruence | congruence |].
    exists ((i, a) :: new). split.
    + rewrite Ht, Ht1, <- app_assoc. reflexivity.
    + constructor; assumption.
Qed.

(** ** Awaiting only inside the gate *)

Lemma step_inside ev w w' :
  step ev w = Some w' ->
  Forall (fun t => inside (holding t) (code t)) (tasks w) ->
  Forall (fun t => inside (holding t) (code t)) (tasks w').
Proof.
  intros H Hall.
  apply step_moves in H as (i & t & a & t' & Ht & Hm & ->).
  assert (Hn : inside (holding t) (code t)) by (eapply Forall_lookup_1 in Hall; eauto).
  rewrite tasks_set_task, tasks_effect.
  apply Forall_insert; [assumption |].
  destruct Hm as [k Hk Hpos | k Hk | secs k Hk | r k Hk | k Hk | url k o Hk];
    rewrite Hk in Hn; simpl in *; auto; apply Hn.
Qed.

Lemma exec_inside sched w w' :
  exec sched w = Some w' ->
  Forall (fun t => inside (holding t) (code t)) (tasks w) ->
  Forall (fun t => inside (holding t) (code t)) (tasks w').
Proof.
  revert w. induction sched as [| ev sched IH]; intros w H Hall; simpl in H.
  - injection H as <-. exact Hall.
  - destruct (step ev w) as [w1 |] eqn:Hs; [| discriminate].
    eauto using step_inside.
Qed.

Lemma suspended_count_le_holding ts :
  Forall (fun t => inside (holding t) (code t)) ts ->
  (suspended_count ts <= holding_count ts)%nat.
Proof.
  induction 1 as [| t ts Ht _ IH]; simpl; [lia |].
  unfold suspended. destruct (code t); simpl in Ht;
    try (destruct (holding t); lia);
    destruct Ht as [-> _]; lia.
Qed.

Lemma holding_count_done ts :
  forallb done ts = true ->
  Forall (fun t => bracketed (holding t) (code t)) ts ->
  holding_count ts = 0%nat.
Proof.
  intros Hd Hb. apply holding_count_free.
  induction Hb as [| t ts Ht _ IH]; [constructor |].
  simpl in Hd. apply andb_true_iff in Hd as [Hd1 Hd2].
  constructor; [| auto].
  unfold done in Hd1. destruct (code t); try discriminate. exact Ht.
Qed.

Lemma gather_done ts results :
  gather ts = Some (inr results) -> forallb done ts = true.
Proof.
  intros H. apply gather_inr in H.
  induction H as [| t v ts vs Ht _ IH]; [reflexivity |].
  simpl. unfold done at 1. rewrite Ht. exact IH.
Qed.

(** ** The Scraper, further *)

Section ScraperFurther.

Variable raises_for_status : response -> bool.

Lemma fetch_json_inside url : inside false (fetch_json raises_for_status url).
Proof.
  unfold fetch_json, raise_for_status, json; simpl. split; [reflexivity |].
  intros [[] | r]; simpl; auto.
  - split; [reflexivity |]. intros [e | r]; simpl; exact I.
  - destruct (raises_for_status r); simpl; [exact I |].
    split; [reflexivity |]. destruct (json_body r); simpl; exact I.
Qed.

Ltac count_up :=
  intros [= <- <-]; repeat split; intros;
  try reflexivity; try discriminate; try (vm_compute; congruence).

(** What one fetch sends and logs, whatever the replies. *)
Lemma fetch_json_facts url replies v acts :
  run_task (fetch_json raises_for_status url) replies = Some (inr v, acts) ->
  requests_of acts = (if first_is_request_error replies then [url; url] else [url]) /\
  0 <= increments_of acts <= 1 /\
  (is_absent v = false -> increments_of acts = 1) /\
  (is_absent v = false -> error_count (logs_of acts) = 0) /\
  info_count (logs_of acts) = increments_of acts /\
  0 <= error_count (logs_of acts) <= 1 /\
  1 <= info_count (logs_of acts) + error_count (logs_of acts).
Proof.
  unfold fetch_json, raise_for_status, json; simpl.
  destruct replies as [| [[] | r1] replies]; simpl; try discriminate;
    try (count_up; fail).
  - destruct replies as [| [e2 | r2] replies]; simpl; try discriminate; count_up.
  - destruct (raises_for_status r1); simpl; [count_up |].
    destruct (json_body r1) as [payload |]; simpl; count_up.
Qed.

(** A finished [fetch_data], started on any Scraper: what it added to the
    trace, task by task, and to the counter, the requests and the log. *)
Lemma fetch_data_from urls sched self results w :
  fetch_data raises_for_status urls sched self = Returns results w ->
  exists w1 new,
    exec sched (started raises_for_status urls self) = Some w1 /\
    w = print (successful_fetches w1) w1 /\
    forallb done (tasks w1) = true /\
    trace w1 = trace self ++ new /\
    Forall (fun ia => (fst ia < length urls)%nat) new /\
    length results = length urls /\
    (forall i url, urls !! i = Some url ->
       exists v, results !! i = Some v /\
         run_task (fetch_json raises_for_status url) (replies_to i sched) =
           Some (inr v, actions_of i new)) /\
    successful_fetches w1 = successful_fetches self + increments_of (snd <$> new) /\
    requests w1 = requests self ++ requests_of (snd <$> new) /\
    log w1 = log self ++ logs_of (snd <$> new).
Proof.
  intros H. unfold fetch_data in H.
  destruct (exec sched (started raises_for_status urls self)) as [w1 |] eqn:Hex;
    [| discriminate].
  destruct (gather (tasks w1)) as [[e | vs] |] eqn:Hg; try discriminate.
  injection H as -> <-.
  pose proof (gather_done _ _ Hg) as Hdone. apply gather_inr in Hg.
  destruct (exec_frame _ _ _ Hex) as (_ & _ & new & Htr & Hidx).
  destruct (exec_outputs _ _ _ Hex) as (new' & Htr' & Hc & Hr & Hl).
  assert (new' = new) as ->.
  { rewrite Htr in Htr'. eapply app_inv_head. symmetry. exact Htr'. }
  assert (Hlen0 : length (tasks (started raises_for_status urls self)) = length urls).
  { unfold started, create_tasks. simpl. apply length_fmap. }
  rewrite Hlen0 in Hidx.
  exists w1, new. repeat split; auto.
  - rewrite <- (Forall2_length _ _ _ Hg), (exec_length _ _ _ Hex). exact Hlen0.
  - intros i url Hi.
    destruct (exec_run_task _ _ _ i _ Hex (create_tasks_lookup _ _ _ _ Hi))
      as (t' & acts & Hi' & Hacts & Hrun).
    destruct (Forall2_lookup_l _ _ _ _ _ Hg Hi') as (v & Hv & Hcode).
    exists v. split; [exact Hv |].
    specialize (Hrun []). rewrite app_nil_r, Hcode in Hrun.
    change (run_task (fetch_json raises_for_status url) (replies_to i sched) =
            Some (inr v, acts ++ [])) in Hrun.
    rewrite app_nil_r in Hrun.
    rewrite Htr in Hacts.
    change (trace (started raises_for_status urls self)) with (trace self) in Hacts.
    rewrite actions_of_app in Hacts. apply app_inv_head in Hacts.
    rewrite Hrun, Hacts. reflexivity.
Qed.

(** What [fetch_json_facts] says of task [i] of a finished [fetch_data]. *)
Lemma fetch_data_task_facts (urls : list string) sched (results : list pyval) new i :
  (forall i url, urls !! i = Some url ->
     exists v, results !! i = Some v /\
       run_task (fetch_json raises_for_status url) (replies_to i sched) =
         Some (inr v, actions_of i new)) ->
  (i < length urls)%nat ->
  exists url v,
    urls !! i = Some url /\ results !! i = Some v /\
    requests_of (actions_of i new) =
      (if first_is_request_error (replies_to i sched) then [url; url] else [url]) /\
    0 <= increments_of (actions_of i new) <= 1 /\
    (is_absent v = false -> increments_of (actions_of i new) = 1) /\
    (is_absent v = false -> error_count (logs_of (actions_of i new)) = 0) /\
    info_count (logs_of (actions_of i new)) = increments_of (actions_of i new) /\
    0 <= error_count (logs_of (actions_of i new)) <= 1 /\
    1 <= info_count (logs_of (actions_of i new)) +
         error_count (logs_of (actions_of i new)).
Proof.
  intros Htasks Hi.
  destruct (lookup_lt_is_Some_2 urls i Hi) as (url & Hurl).
  destruct (Htasks i url Hurl) as (v & Hv & Hrun).
  exists url, v. split; [exact Hurl |]. split; [exact Hv |].
  exact (fetch_json_facts _ _ _ _ Hrun).
Qed.

Lemma started_inside urls self :
  Forall (fun t => inside (holding t) (code t))
    (tasks (started raises_for_status urls self)).
Proof.
  unfold started, create_tasks. simpl. apply Forall_fmap, Forall_forall.
  intros url _. apply fetch_json_inside.
Qed.

Lemma started_gate_inv_from urls self :
  0 <= value self ->
  gate_inv (value self) (started raises_for_status urls self).
Proof.
  intros Hv. unfold gate_inv, holders, started. simpl. rewrite create_tasks_free.
  repeat split; try lia.
  unfold create_tasks. apply Forall_fmap, Forall_forall. intros url _.
  apply fetch_json_bracketed.
Qed.

(** X1. At every point of every run, a task that is suspended at the GET
    (the first one or the retry) or in the sleep after it is inside
    [async with self.semaphore]: the requests in flight and the sleeping
    fetches together are at most [concurrency]. *)
Theorem awaits_only_inside_gate urls concurrency scraper sched w :
  Scraper_init concurrency = inr scraper ->
  exec sched (started raises_for_status urls scraper) = Some w ->
  Forall (fun t => suspended t = true -> holding t = true) (tasks w) /\
  Z.of_nat (suspended_count (tasks w)) <= concurrency.
Proof.
  intros Hinit Hex.
  pose proof (exec_inside _ _ _ Hex (started_inside urls scraper)) as Hin.
  destruct (exec_gate_inv concurrency _ _ _ Hex (started_gate_inv _ urls _ _ Hinit))
    as (Hv & Hsum & _).
  split.
  - eapply Forall_impl; [exact Hin |]. intros t. unfold suspended.
    destruct (code t); simpl; intros Ht; try discriminate; intros _; apply Ht.
  - pose proof (suspended_count_le_holding _ Hin). unfold holders in Hsum. lia.
Qed.

(** X2. When [fetch_data] returns, every slot of the semaphore is free
    again, whichever way each fetch ended: the semaphore's value is what it
    was before the call and no task is inside the block. *)
Theorem fetch_data_frees_every_slot urls sched self results w :
  0 <= value self ->
  fetch_data raises_for_status urls sched self = Returns results w ->
  value w = value self /\ holders w = 0%nat.
Proof.
  intros Hv H.
  destruct (fetch_data_from _ _ _ _ _ H) as (w1 & new & Hex & -> & Hdone & _).
  destruct (exec_gate_inv (value self) _ _ _ Hex (started_gate_inv_from urls self Hv))
    as (_ & Hsum & Hb).
  pose proof (holding_count_done _ Hdone Hb) as Hfree.
  unfold holders in *. simpl. rewrite Hfree in Hsum. split; [lia | exact Hfree].
Qed.

(** X3. [fetch_data] adds to [successful_fetches] at least the number of
    entries of its result that are not [None] and at most the number of
    URLs, on top of what the counter held before the call (it is not reset),
    and prints the counter once, at its new value. *)
Theorem successful_fetches_bounds urls sched self results w :
  fetch_data raises_for_status urls sched self = Returns results w ->
  successful_fetches self + non_absent_count results <= successful_fetches w /\
  successful_fetches w <= successful_fetches self + Z.of_nat (length urls) /\
  printed w = printed self ++ [successful_fetches w].
Proof.
  intros H.
  destruct (fetch_data_from _ _ _ _ _ H)
    as (w1 & new & Hex & -> & Hdone & Htr & Hidx & Hlen & Htasks & Hc & _).
  destruct (exec_frame _ _ _ Hex) as (Hp & _).
  simpl. rewrite Hc, Hp.
  rewrite (measure_by_task increments_of (length urls) new eq_refl
             increments_of_app Hidx).
  rewrite non_absent_count_by_index, Hlen.
  split; [| split; [| reflexivity]].
  - apply Zplus_le_compat_l, sumZ_le. intros i Hi.
    destruct (fetch_data_task_facts _ _ _ _ _ Htasks Hi)
      as (url & v & _ & -> & _ & Hinc & Hpres & _).
    destruct (is_absent v); [lia |]. rewrite Hpres; [lia | reflexivity].
  - rewrite <- (Z.mul_1_r (Z.of_nat (length urls))), <- sumZ_const.
    apply Zplus_le_compat_l, sumZ_le. intros i Hi.
    destruct (fetch_data_task_facts _ _ _ _ _ Htasks Hi)
      as (url & v & _ & _ & _ & Hinc & _).
    lia.
Qed.

Lemma Scraper_init_inr concurrency scraper :
  Scraper_init concurrency = inr scraper ->
  0 <= concurrency /\ scraper = World concurrency 0 false [] [] [] [] [].
Proof.
  unfold Scraper_init. destruct (Z.ltb_spec concurrency 0); [discriminate |].
  intros [= <-]. auto.
Qed.

Lemma requests_length_app acts1 acts2 :
  Z.of_nat (length (requests_of (acts1 ++ acts2))) =
  Z.of_nat (length (requests_of acts1)) + Z.of_nat (length (requests_of acts2)).
Proof. unfold requests_of. rewrite omap_app, length_app. lia. Qed.

Lemma info_count_logs_app acts1 acts2 :
  info_count (logs_of (acts1 ++ acts2)) =
  info_count (logs_of acts1) + info_count (logs_of acts2).
Proof.
  unfold info_count, logs_of. rewrite omap_app, List.filter_app, length_app. lia.
Qed.

Lemma error_count_logs_app acts1 acts2 :
  error_count (logs_of (acts1 ++ acts2)) =
  error_count (logs_of acts1) + error_count (logs_of acts2).
Proof.
  unfold error_count, logs_of. rewrite omap_app, List.filter_app, length_app. lia.
Qed.

(** X4. In a finished run each task has sent one GET, or two when its first
    GET raised [httpx.RequestError] and in no other case, and always for its
    own URL: the run sends between one and two requests per URL, and none
    for a URL that is not in the list. *)
Theorem requests_of_a_run urls concurrency scraper sched results w :
  Scraper_init concurrency = inr scraper ->
  fetch_data raises_for_status urls sched scraper = Returns results w ->
  (forall i url, urls !! i = Some url ->
     requests_of (actions_of i (trace w)) =
       if first_is_request_error (replies_to i sched) then [url; url] else [url]) /\
  (length urls <= length (requests w) <= 2 * length urls)%nat /\
  Forall (fun u => u ∈ urls) (requests w).
Proof.
  intros Hinit H. apply Scraper_init_inr in Hinit as (_ & ->).
  destruct (fetch_data_from _ _ _ _ _ H)
    as (w1 & new & Hex & -> & Hdone & Htr & Hidx & Hlen & Htasks & _ & Hr & _).
  simpl in Htr, Hr. simpl. rewrite Htr, Hr.
  split; [| split].
  - intros i url Hi.
    destruct (fetch_data_task_facts _ _ _ _ _ Htasks (lookup_lt_Some _ _ _ Hi))
      as (url' & v & Hurl & _ & Hreq & _).
    rewrite Hi in Hurl. injection Hurl as <-. exact Hreq.
  - pose proof (measure_by_task (fun acts => Z.of_nat (length (requests_of acts)))
                  (length urls) new eq_refl requests_length_app Hidx) as Hsum.
    simpl in Hsum.
    assert (Hlo : sumZ (fun _ => 1) (length urls) <=
                  sumZ (fun i => Z.of_nat (length (requests_of (actions_of i new))))
                    (length urls)).
    { apply sumZ_le. intros i Hi.
      destruct (fetch_data_task_facts _ _ _ _ _ Htasks Hi)
        as (url & v & _ & _ & -> & _).
      destruct (first_is_request_error _); simpl; lia. }
    assert (Hhi : sumZ (fun i => Z.of_nat (length (requests_of (actions_of i new))))
                    (length urls) <= sumZ (fun _ => 2) (length urls)).
    { apply sumZ_le. intros i Hi.
      destruct (fetch_data_task_facts _ _ _ _ _ Htasks Hi)
        as (url & v & _ & _ & -> & _).
      destruct (first_is_request_error _); simpl; lia. }
    rewrite sumZ_const in Hlo, Hhi. lia.
  - apply Forall_forall. intros u Hu.
    apply list_elem_of_omap in Hu as (a & Ha & Hget).
    destruct a; try discriminate. injection Hget as ->.
    apply list_elem_of_fmap in Ha as ([i a] & Ha & Hin). simpl in Ha. subst a.
    rewrite Forall_forall in Hidx. pose proof (Hidx _ Hin) as Hi. simpl in Hi.
    destruct (fetch_data_task_facts _ _ _ _ _ Htasks Hi)
      as (url & v & Hurl & _ & Hreq & _).
    assert (Hmine : u ∈ requests_of (actions_of i new)).
    { apply list_elem_of_omap. exists (AGet u). split; [| reflexivity].
      apply list_elem_of_omap. exists (i, AGet u). split; [exact Hin |].
      simpl. rewrite Nat.eqb_refl. reflexivity. }
    rewrite Hreq in Hmine.
    assert (u = url) as ->.
    { destruct (first_is_request_error _);
        repeat (apply elem_of_cons in Hmine as [Hmine | Hmine]; [assumption |]);
        inversion Hmine. }
    eapply list_elem_of_lookup_2; eauto.
Qed.

(** X5. In a finished run the info records of the log (line 53) are as many
    as [successful_fetches]; the error records and the entries of the result
    that are not [None] are together at most as many as the URLs (a fetch
    that returned data logged no error, and no fetch logs two); and the log
    holds at least one record per URL. *)
Theorem log_of_a_run urls concurrency scraper sched results w :
  Scraper_init concurrency = inr scraper ->
  fetch_data raises_for_status urls sched scraper = Returns results w ->
  info_count (log w) = successful_fetches w /\
  error_count (log w) + non_absent_count results <= Z.of_nat (length urls) /\
  Z.of_nat (length urls) <= info_count (log w) + error_count (log w).
Proof.
  intros Hinit H. apply Scraper_init_inr in Hinit as (_ & ->).
  destruct (fetch_data_from _ _ _ _ _ H)
    as (w1 & new & Hex & -> & Hdone & Htr & Hidx & Hlen & Htasks & Hc & _ & Hl).
  simpl in Hc, Hl. simpl. rewrite Hc, Hl.
  rewrite (measure_by_task increments_of (length urls) new eq_refl
             increments_of_app Hidx).
  rewrite (measure_by_task (fun acts => info_count (logs_of acts)) (length urls) new
             eq_refl info_count_logs_app Hidx).
  rewrite (measure_by_task (fun acts => error_count (logs_of acts)) (length urls) new
             eq_refl error_count_logs_app Hidx).
  rewrite non_absent_count_by_index, Hlen, <- !sumZ_add.
  rewrite <- (Z.mul_1_r (Z.of_nat (length urls))), <- sumZ_const.
  split; [| split].
  - apply sumZ_ext. intros i Hi.
    destruct (fetch_data_task_facts _ _ _ _ _ Htasks Hi)
      as (url & v & _ & _ & _ & _ & _ & _ & Hinfo & _).
    exact Hinfo.
  - apply sumZ_le. intros i Hi.
    destruct (fetch_data_task_facts _ _ _ _ _ Htasks Hi)
      as (url & v & _ & -> & _ & _ & _ & Hnoerr & _ & Herr & _).
    destruct (is_absent v); [lia |]. rewrite Hnoerr; [lia | reflexivity].
  - apply sumZ_le. intros i Hi.
    destruct (fetch_data_task_facts _ _ _ _ _ Htasks Hi)
      as (url & v & _ & _ & _ & _ & _ & _ & _ & _ & Hone).
    exact Hone.
Qed.

(** X6. What [fetch_data] returns depends on the replies each task got and
    not on the schedule: two finished calls on the same Scraper in which
    every task received the same replies return the same list, leave the
    same counter, print the same count, and each task has performed the
    same actions. *)
Theorem fetch_data_depends_on_replies_only urls self sched1 sched2 results1 w1 results2 w2 :
  fetch_data raises_for_status urls sched1 self = Returns results1 w1 ->
  fetch_data raises_for_status urls sched2 self = Returns results2 w2 ->
  (forall i, (i < length urls)%nat -> replies_to i sched1 = replies_to i sched2) ->
  results1 = results2 /\
  successful_fetches w1 = successful_fetches w2 /\
  printed w1 = printed w2 /\
  (forall i, (i < length urls)%nat ->
     actions_of i (trace w1) = actions_of i (trace w2)).
Proof.
  intros H1 H2 Hsame.
  destruct (fetch_data_from _ _ _ _ _ H1)
    as (v1 & new1 & Hex1 & -> & _ & Htr1 & Hidx1 & Hlen1 & Htasks1 & Hc1 & _).
  destruct (fetch_data_from _ _ _ _ _ H2)
    as (v2 & new2 & Hex2 & -> & _ & Htr2 & Hidx2 & Hlen2 & Htasks2 & Hc2 & _).
  destruct (exec_frame _ _ _ Hex1) as (Hp1 & _).
  destruct (exec_frame _ _ _ Hex2) as (Hp2 & _).
  assert (Hacts : forall i, (i < length urls)%nat ->
                    actions_of i new1 = actions_of i new2 /\
                    results1 !! i = results2 !! i).
  { intros i Hi. destruct (lookup_lt_is_Some_2 urls i Hi) as (url & Hurl).
    destruct (Htasks1 i url Hurl) as (a1 & Ha1 & Hrun1).
    destruct (Htasks2 i url Hurl) as (a2 & Ha2 & Hrun2).
    rewrite (Hsame i Hi), Hrun2 in Hrun1. injection Hrun1 as -> Heq.
    split; [auto | congruence]. }
  assert (Hcount : successful_fetches v1 = successful_fetches v2).
  { rewrite Hc1, Hc2.
    rewrite (measure_by_task increments_of (length urls) new1 eq_refl
               increments_of_app Hidx1).
    rewrite (measure_by_task increments_of (length urls) new2 eq_refl
               increments_of_app Hidx2).
    f_equal. apply sumZ_ext. intros i Hi.
    destruct (Hacts i Hi) as [-> _]. reflexivity. }
  simpl. repeat split.
  - apply list_eq. intros i. destruct (Nat.lt_ge_cases i (length urls)) as [Hi | Hi].
    + apply Hacts, Hi.
    + rewrite !lookup_ge_None_2; [reflexivity | lia | lia].
  - exact Hcount.
  - rewrite Hp1, Hp2, Hcount. reflexivity.
  - intros i Hi. rewrite Htr1, Htr2, !actions_of_app.
    destruct (Hacts i Hi) as [-> _]. reflexivity.
Qed.

Lemma gather_waiting urls :
  urls <> [] -> gather (create_tasks raises_for_status urls) = None.
Proof.
  intros Hne. unfold gather.
  assert (Hno : omap raised (create_tasks raises_for_status urls) = []).
  { clear Hne. induction urls as [| url urls IH]; [reflexivity | exact IH]. }
  rewrite Hno. destruct urls as [| url urls]; [congruence | reflexivity].
Qed.

Lemma no_slot_no_step urls self ev :
  value self <= 0 -> step ev (started raises_for_status urls self) = None.
Proof.
  intros Hv. apply Z.ltb_ge in Hv.
  destruct ev as [i | i o]; unfold step; simpl;
    unfold create_tasks; rewrite list_lookup_fmap;
    destruct (urls !! i); simpl; try reflexivity.
  rewrite Hv. reflexivity.
Qed.

(** X7. [run] returns under some schedule exactly when [concurrency] is
    positive, or zero with an empty list of URLs.  For a negative
    [concurrency] it raises [ValueError], whatever the URLs; for zero and a
    list that is not empty no task can take a step and it never returns. *)
Theorem run_returns_iff urls concurrency :
  ((exists sched ret w, run raises_for_status urls concurrency sched = Returns ret w) <->
   0 < concurrency \/ (concurrency = 0 /\ urls = [])) /\
  (concurrency < 0 ->
   forall sched, run raises_for_status urls concurrency sched = Raises ValueError) /\
  (concurrency = 0 -> urls <> [] ->
   forall sched, run raises_for_status urls concurrency sched = Pending).
Proof.
  assert (Hneg : concurrency < 0 ->
            forall sched, run raises_for_status urls concurrency sched = Raises ValueError).
  { intros Hc sched. unfold run, Scraper_init.
    apply Z.ltb_lt in Hc. rewrite Hc. reflexivity. }
  assert (Hzero : concurrency = 0 -> urls <> [] ->
            forall sched, run raises_for_status urls concurrency sched = Pending).
  { intros -> Hne sched. unfold run, fetch_data. simpl.
    destruct sched as [| ev sched]; simpl.
    - change (tasks (started raises_for_status urls (World 0 0 false [] [] [] [] [])))
        with (create_tasks raises_for_status urls).
      rewrite (gather_waiting urls Hne). reflexivity.
    - rewrite no_slot_no_step; [reflexivity | simpl; lia]. }
  split; [| split; assumption].
  split.
  - intros (sched & ret & w & H).
    destruct (Z.lt_trichotomy concurrency 0) as [Hc | [Hc | Hc]].
    + rewrite (Hneg Hc) in H. discriminate.
    + destruct urls as [| url urls]; [auto |].
      rewrite (Hzero Hc) in H; [discriminate | discriminate].
    + auto.
  - intros [Hpos | [-> ->]].
    + assert (Hinit : Scraper_init concurrency =
                        inr (World concurrency 0 false [] [] [] [] [])).
      { unfold Scraper_init. destruct (Z.ltb_spec concurrency 0); [lia | reflexivity]. }
      destruct (fetch_data_returns raises_for_status urls _ _
                  (fun _ _ => inl RequestError) Hinit Hpos)
        as (sched & results & w & _ & Hfd).
      exists sched. unfold run. rewrite Hinit, Hfd.
      destruct (truthy results); eauto.
    + exists []. do 2 eexists. reflexivity.
Qed.

Lemma sleeps_of_app acts1 acts2 :
  sleeps_of (acts1 ++ acts2) = sleeps_of acts1 + sleeps_of acts2.
Proof. unfold sleeps_of. rewrite List.filter_app, length_app. lia. Qed.

Lemma other_sleeps_of_app acts1 acts2 :
  other_sleeps_of (acts1 ++ acts2) = other_sleeps_of acts1 + other_sleeps_of acts2.
Proof. unfold other_sleeps_of. rewrite List.filter_app, length_app. lia. Qed.

Lemma fetch_json_sleeps url replies v acts :
  run_task (fetch_json raises_for_status url) replies = Some (inr v, acts) ->
  sleeps_of acts = increments_of acts /\ other_sleeps_of acts = 0.
Proof.
  unfold fetch_json, raise_for_status, json; simpl.
  destruct replies as [| [[] | r1] replies]; simpl; try discriminate;
    try (count_up; fail).
  - destruct replies as [| [e2 | r2] replies]; simpl; try discriminate; count_up.
  - destruct (raises_for_status r1); simpl; [count_up |].
    destruct (json_body r1) as [payload |]; simpl; count_up.
Qed.

(** X9. The pause of one second is taken by exactly the fetches that are
    counted in [successful_fetches]: a finished run has slept as many
    times as its counter says, and a fetch that failed before the count
    has not slept at all. *)
Theorem sleeps_of_a_run urls concurrency scraper sched results w :
  Scraper_init concurrency = inr scraper ->
  fetch_data raises_for_status urls sched scraper = Returns results w ->
  sleeps_of (snd <$> trace w) = successful_fetches w /\
  other_sleeps_of (snd <$> trace w) = 0 /\
  (forall i, (i < length urls)%nat ->
     sleeps_of (actions_of i (trace w)) = increments_of (actions_of i (trace w))).
Proof.
  intros Hinit H. apply Scraper_init_inr in Hinit as (_ & ->).
  destruct (fetch_data_from _ _ _ _ _ H)
    as (w1 & new & Hex & -> & Hdone & Htr & Hidx & Hlen & Htasks & Hc & _).
  simpl in Htr, Hc. simpl. rewrite Htr, Hc.
  assert (Hper : forall i, (i < length urls)%nat ->
            sleeps_of (actions_of i new) = increments_of (actions_of i new) /\
            other_sleeps_of (actions_of i new) = 0).
  { intros i Hi. destruct (lookup_lt_is_Some_2 urls i Hi) as (url & Hurl).
    destruct (Htasks i url Hurl) as (v & _ & Hrun).
    exact (fetch_json_sleeps _ _ _ _ Hrun). }
  rewrite (measure_by_task increments_of (length urls) new eq_refl
             increments_of_app Hidx).
  rewrite (measure_by_task sleeps_of (length urls) new eq_refl sleeps_of_app Hidx).
  rewrite (measure_by_task other_sleeps_of (length urls) new eq_refl
             other_sleeps_of_app Hidx).
  split; [| split].
  - apply sumZ_ext. intros i Hi. apply Hper, Hi.
  - rewrite (sumZ_ext _ (fun _ => 0)), sumZ_const; [lia |].
    intros i Hi. apply Hper, Hi.
  - intros i Hi. apply Hper, Hi.
Qed.

End ScraperFurther.

(** ** The further theorems at concrete inputs *)

Lemma awaits_only_inside_gate_witness :
  exists w,
    Scraper_init 1 = inr one_slot /\
    exec second_holds (started httpx_raises_for_status ["a"; "b"] one_slot) = Some w /\
    suspended_count (tasks w) = 1%nat /\
    Forall (fun t => suspended t = true -> holding t = true) (tasks w) /\
    Z.of_nat (suspended_count (tasks w)) <= 1.
Proof.
  eexists. split; [reflexivity |]. split; [vm_compute; reflexivity |].
  split; [reflexivity |].
  apply (awaits_only_inside_gate httpx_raises_for_status ["a"; "b"] 1 one_slot
           second_holds);
    reflexivity.
Defined.

Lemma fetch_data_frees_every_slot_witness :
  0 <= value one_slot /\
  exists results w,
    fetch_data httpx_raises_for_status ["a"; "b"] second_first one_slot =
      Returns results w /\
    value w = value one_slot /\ holders w = 0%nat.
Proof.
  split; [discriminate |]. do 2 eexists. split; [vm_compute; reflexivity |].
  eapply (fetch_data_frees_every_slot httpx_raises_for_status ["a"; "b"] second_first
            one_slot);
    [discriminate | vm_compute; reflexivity].
Defined.

Lemma successful_fetches_bounds_witness :
  exists results w,
    fetch_data httpx_raises_for_status ["a"; "b"] second_first one_slot =
      Returns results w /\
    successful_fetches one_slot + non_absent_count results <= successful_fetches w /\
    successful_fetches w <= successful_fetches one_slot + Z.of_nat (length ["a"; "b"]) /\
    printed w = printed one_slot ++ [successful_fetches w].
Proof.
  do 2 eexists. split; [vm_compute; reflexivity |].
  apply (successful_fetches_bounds httpx_raises_for_status ["a"; "b"] second_first
           one_slot).
  vm_compute. reflexivity.
Defined.

Lemma requests_of_a_run_witness :
  Scraper_init 1 = inr one_slot /\
  exists results w,
    fetch_data httpx_raises_for_status ["a"; "b"] second_first one_slot =
      Returns results w /\
    (forall i url, ["a"; "b"] !! i = Some url ->
       requests_of (actions_of i (trace w)) =
         if first_is_request_error (replies_to i second_first)
         then [url; url] else [url]) /\
    (length ["a"; "b"] <= length (requests w) <= 2 * length ["a"; "b"])%nat /\
    Forall (fun u => u ∈ ["a"; "b"]) (requests w).
Proof.
  split; [reflexivity |]. do 2 eexists. split; [vm_compute; reflexivity |].
  eapply (requests_of_a_run httpx_raises_for_status ["a"; "b"] 1 one_slot second_first);
    [reflexivity | vm_compute; reflexivity].
Defined.

Lemma log_of_a_run_witness :
  Scraper_init 1 = inr one_slot /\
  exists results w,
    fetch_data httpx_raises_for_status ["a"; "b"] second_first one_slot =
      Returns results w /\
    info_count (log w) = successful_fetches w /\
    error_count (log w) + non_absent_count results <= Z.of_nat (length ["a"; "b"]) /\
    Z.of_nat (length ["a"; "b"]) <= info_count (log w) + error_count (log w).
Proof.
  split; [reflexivity |]. do 2 eexists. split; [vm_compute; reflexivity |].
  eapply (log_of_a_run httpx_raises_for_status ["a"; "b"] 1 one_slot second_first);
    [reflexivity | vm_compute; reflexivity].
Defined.

Lemma fetch_data_depends_on_replies_only_witness :
  exists results1 w1 results2 w2,
    fetch_data httpx_raises_for_status ["a"; "b"] second_first one_slot =
      Returns results1 w1 /\
    fetch_data httpx_raises_for_status ["a"; "b"] first_first one_slot =
      Returns results2 w2 /\
    (forall i, (i < length ["a"; "b"])%nat ->
       replies_to i second_first = replies_to i first_first) /\
    results1 = results2 /\
    successful_fetches w1 = successful_fetches w2 /\
    printed w1 = printed w2 /\
    (forall i, (i < length ["a"; "b"])%nat ->
       actions_of i (trace w1) = actions_of i (trace w2)).
Proof.
  do 4 eexists. split; [vm_compute; reflexivity |]. split; [vm_compute; reflexivity |].
  assert (Hsame : forall i, (i < length ["a"; "b"])%nat ->
                    replies_to i second_first = replies_to i first_first).
  { intros [| [| i]] Hi; [reflexivity | reflexivity | simpl in Hi; lia]. }
  split; [exact Hsame |].
  eapply (fetch_data_depends_on_replies_only httpx_raises_for_status ["a"; "b"] one_slot
            second_first first_first);
    [vm_compute; reflexivity | vm_compute; reflexivity | exact Hsame].
Defined.

Lemma run_returns_iff_witness :
  (0 = 0 /\ ["a"] <> @nil string /\
   run httpx_raises_for_status ["a"] 0 [Resume 0] = Pending) /\
  (-1 < 0 /\ run httpx_raises_for_status ["a"] (-1) [] = Raises ValueError).
Proof.
  split.
  - split; [reflexivity |]. split; [discriminate |].
    apply (proj2 (proj2 (run_returns_iff httpx_raises_for_status ["a"] 0)));
      [reflexivity | discriminate].
  - split; [reflexivity |].
    apply (proj1 (proj2 (run_returns_iff httpx_raises_for_status ["a"] (-1)))).
    reflexivity.
Defined.

Lemma sleeps_of_a_run_witness :
  Scraper_init 1 = inr one_slot /\
  exists results w,
    fetch_data httpx_raises_for_status ["a"; "b"] second_first one_slot =
      Returns results w /\
    sleeps_of (snd <$> trace w) = successful_fetches w /\
    other_sleeps_of (snd <$> trace w) = 0 /\
    (forall i, (i < length ["a"; "b"])%nat ->
       sleeps_of (actions_of i (trace w)) = increments_of (actions_of i (trace w))).
Proof.
  split; [reflexivity |]. do 2 eexists. split; [vm_compute; reflexivity |].
  eapply (sleeps_of_a_run httpx_raises_for_status ["a"; "b"] 1 one_slot second_first);
    [reflexivity | vm_compute; reflexivity].
Defined.
